(** * metaflow-local-service: the store, the identifier generators, the
      daemon supervisor and the heartbeat routes

    A shallow embedding of [store.py], [daemon.py] and the heartbeat routes of
    [server.py].  Module-level Python variables ([_task_counters],
    [_last_run_id], [last_heartbeat_at], [LocalStorage.datastore_root]) and
    the files under [.metaflow/] are fields of an explicit state that every
    operation threads through.  Readings of the wall clock and of the user
    name are inputs of the operations that take them.

    Conventions.
    - A path is the list of its components; [os.path.join] is list append
      and [path.split(os.sep)] is the list itself.  Flow, run, step and task
      names are single components.
    - [time.time()] is a rational number of seconds; IEEE rounding is not
      modelled.
    - The disk holds directories and JSON files; symbolic links, permissions
      and input/output errors are not modelled.
    - Dictionaries that the code uses as structs (request bodies, entity
      records, artifacts, the daemon state) are records whose fields have
      the types of the data model. *)

From stdpp Require Import gmap strings list fin_maps sorting.
From Stdlib Require Import ZArith QArith Qround Ascii String Lia Lqa.

Local Open Scope string_scope.
Local Open Scope list_scope.
Local Open Scope Z_scope.

(** ** Python builtins *)

Module Py.

(** The characters of a string, as [list(s)] enumerates them. *)
Definition chars (s : string) : list ascii := list_ascii_of_string s.
Definition of_chars (l : list ascii) : string := string_of_list_ascii l.

Definition digit_char (d : Z) : ascii := ascii_of_nat (48 + Z.to_nat d).

Definition is_digit (c : ascii) : bool :=
  (48 <=? nat_of_ascii c)%nat && (nat_of_ascii c <=? 57)%nat.

Definition digit_val (c : ascii) : Z := Z.of_nat (nat_of_ascii c) - 48.

(** Decimal digits of a natural number, least significant first. *)
Fixpoint digits_lsf (fuel : nat) (n : Z) : list Z :=
  match fuel with
  | O => []
  | S fuel' =>
      (n mod 10) :: (if n / 10 =? 0 then [] else digits_lsf fuel' (n / 10))
  end.

Definition decimal (n : Z) : list ascii :=
  digit_char <$> rev (digits_lsf (S (Z.to_nat (Z.log2 n))) n).

(** [str(n)] for an [int]. *)
Definition py_str (n : Z) : string :=
  if n <? 0 then of_chars ("-"%char :: decimal (- n)) else of_chars (decimal n).

(** ASCII white space, which [int()] strips on both sides. *)
Definition is_space (c : ascii) : bool :=
  let k := nat_of_ascii c in
  (k =? 32)%nat || ((9 <=? k)%nat && (k <=? 13)%nat).

Fixpoint lstrip (s : list ascii) : list ascii :=
  match s with
  | c :: s' => if is_space c then lstrip s' else s
  | [] => []
  end.

Definition strip (s : list ascii) : list ascii := rev (lstrip (rev (lstrip s))).

(** The digits of an integer literal: groups of digits separated by single
    underscores.  [prev] tells whether the previous character was a digit. *)
Fixpoint digits_value (acc : Z) (prev : bool) (s : list ascii) : option Z :=
  match s with
  | [] => if prev then Some acc else None
  | c :: s' =>
      if is_digit c then digits_value (10 * acc + digit_val c) true s'
      else if Ascii.eqb c "_" && prev then
        match s' with
        | d :: _ => if is_digit d then digits_value acc false s' else None
        | [] => None
        end
      else None
  end.

(** [int(s)] for a [str], base 10, on ASCII input; [None] is [ValueError]. *)
Definition py_int (s : string) : option Z :=
  match strip (chars s) with
  | c :: r =>
      if Ascii.eqb c "-" then Z.opp <$> digits_value 0 false r
      else if Ascii.eqb c "+" then digits_value 0 false r
      else digits_value 0 false (c :: r)
  | [] => None
  end.

(** [int(x)] for a [float]: truncation towards zero. *)
Definition int_of_float (q : Q) : Z :=
  if Qle_bool 0 q then Qfloor q else Qceiling q.

(** [round(x)] for a [float]: to the nearest integer, ties to even. *)
Definition py_round (q : Q) : Z :=
  let f := Qfloor q in
  match Qcompare (q - inject_Z f) (1 # 2) with
  | Lt => f
  | Gt => f + 1
  | Eq => if Z.even f then f else f + 1
  end.

(** [x or d] where [x] is [None] or a string. *)
Definition or_str (x : option string) (d : string) : string :=
  match x with
  | Some s => if String.eqb s "" then d else s
  | None => d
  end.

(** [x or d] where [x] is [None] or an integer. *)
Definition or_int (x : option Z) (d : Z) : Z :=
  match x with
  | Some n => if n =? 0 then d else n
  | None => d
  end.

(** [list(x or [])] where [x] is [None] or a list. *)
Definition or_list {A} (x : option (list A)) : list A :=
  match x with
  | Some l => l
  | None => []
  end.

End Py.

(** ** [fnmatch] and [glob] *)

Module Glob.
Import Py.

(** One unit of a shell pattern, as [fnmatch.translate] reads it. *)
Inductive tok :=
| TStar
| TQuest
| TLit (c : ascii)
| TSet (negated : bool) (ranges : list (ascii * ascii)).

(** The members of a bracket expression: [a-b] is a range, any other
    character stands for itself; a range whose ends are out of order is
    dropped. *)
Fixpoint set_ranges (fuel : nat) (s : list ascii) : list (ascii * ascii) :=
  match fuel with
  | O => []
  | S fuel' =>
      match s with
      | lo :: dash :: hi :: s' =>
          if Ascii.eqb dash "-" then
            if (nat_of_ascii lo <=? nat_of_ascii hi)%nat
            then (lo, hi) :: set_ranges fuel' s'
            else set_ranges fuel' s'
          else (lo, lo) :: set_ranges fuel' (dash :: hi :: s')
      | c :: s' => (c, c) :: set_ranges fuel' s'
      | [] => []
      end
  end.

(** Split at the first closing bracket. *)
Fixpoint until_close (s : list ascii) : option (list ascii * list ascii) :=
  match s with
  | [] => None
  | c :: s' =>
      if Ascii.eqb c "]" then Some ([], s')
      else match until_close s' with
           | Some (stuff, rest) => Some (c :: stuff, rest)
           | None => None
           end
  end.

(** After an opening bracket: the bracket expression and what follows it,
    or [None] when the bracket is never closed.  A leading [!] negates and
    a [[]] right after the opening (or after the [!]) is a member. *)
Definition bracket (s : list ascii) : option (bool * list ascii * list ascii) :=
  let '(neg, s1) :=
    match s with
    | c :: t => if Ascii.eqb c "!" then (true, t) else (false, s)
    | [] => (false, s)
    end in
  match s1 with
  | c :: t =>
      if Ascii.eqb c "]" then
        match until_close t with
        | Some (stuff, rest) => Some (neg, c :: stuff, rest)
        | None => None
        end
      else
        match until_close s1 with
        | Some (stuff, rest) => Some (neg, stuff, rest)
        | None => None
        end
  | [] => None
  end.

Fixpoint translate (fuel : nat) (pat : list ascii) : list tok :=
  match fuel with
  | O => []
  | S fuel' =>
      match pat with
      | [] => []
      | c :: pat' =>
          if Ascii.eqb c "*" then TStar :: translate fuel' pat'
          else if Ascii.eqb c "?" then TQuest :: translate fuel' pat'
          else if Ascii.eqb c "[" then
            match bracket pat' with
            | Some (neg, stuff, rest) =>
                TSet neg (set_ranges (List.length stuff) stuff) :: translate fuel' rest
            | None => TLit c :: translate fuel' pat'
            end
          else TLit c :: translate fuel' pat'
      end
  end.

Definition in_ranges (c : ascii) (ranges : list (ascii * ascii)) : bool :=
  existsb (λ r, (nat_of_ascii (fst r) <=? nat_of_ascii c)%nat
                && (nat_of_ascii c <=? nat_of_ascii (snd r))%nat) ranges.

Definition tok_accepts (t : tok) (c : ascii) : bool :=
  match t with
  | TStar | TQuest => true
  | TLit d => Ascii.eqb d c
  | TSet neg ranges => xorb neg (in_ranges c ranges)
  end.

(** Does the whole of [s] match the pattern? *)
Fixpoint matches (ts : list tok) (s : list ascii) : bool :=
  match ts with
  | [] => match s with [] => true | _ => false end
  | TStar :: ts' =>
      (fix star (s : list ascii) : bool :=
         matches ts' s || match s with [] => false | _ :: s' => star s' end) s
  | t :: ts' =>
      match s with
      | [] => false
      | c :: s' => tok_accepts t c && matches ts' s'
      end
  end.

(** [fnmatch.fnmatchcase(name, pat)]. *)
Definition fnmatch (name pat : string) : bool :=
  matches (translate (List.length (chars pat)) (chars pat)) (chars name).

Definition magic_char (c : ascii) : bool :=
  Ascii.eqb c "*" || Ascii.eqb c "?" || Ascii.eqb c "[".

(** [glob.has_magic]: does the string contain one of [*], [?], [[]? *)
Definition has_magic (s : string) : bool := existsb magic_char (chars s).

(** [glob._ishidden]. *)
Definition ishidden (s : string) : bool :=
  match s with
  | String c _ => Ascii.eqb c "."
  | EmptyString => false
  end.

(** One component of a pattern against one directory entry: a component
    without magic names the entry itself; a component with magic is matched
    with [fnmatch] against the listing, and hidden entries are left out
    unless the component itself starts with a dot. *)
Definition component_match (pat name : string) : bool :=
  if has_magic pat
  then (ishidden pat || negb (ishidden name)) && fnmatch name pat
  else String.eqb pat name.

Fixpoint path_match (pat p : list string) : bool :=
  match pat, p with
  | [], [] => true
  | c :: pat', n :: p' => component_match c n && path_match pat' p'
  | _, _ => false
  end.

End Glob.

(** ** [store.py] *)

Module Store.
Import Py Glob.

(** A request body: the keys that the record builders read. *)
Record body := Body {
  b_user_name : option string;
  b_tags : option (list string);
  b_system_tags : option (list string);
  b_ts_epoch : option Z
}.

(** The record of a flow, run, step or task; the keys below the level of
    the entity are absent. *)
Record entity := Entity {
  flow_id : string;
  run_number : option string;
  step_name : option string;
  task_id : option string;
  user_name : string;
  tags : list string;
  system_tags : list string;
  ts_epoch : Z
}.

(** An artifact record: its name, its attempt when it has one, and its
    other fields. *)
Record artifact := Artifact {
  art_name : string;
  art_attempt_id : option Z;
  art_fields : list (string * string)
}.

(** What a JSON file under a [_meta] directory holds. *)
Inductive content :=
| Self (r : entity)
| Art (a : artifact).

(** The state of the process and of the disk.  [files] and [dirs] are
    keyed by absolute paths. *)
Record state := State {
  datastore_root : option (list string);
  files : gmap (list string) content;
  dirs : gset (list string);
  _task_counters : gmap string Z;
  _last_run_id : Z
}.

Definition set_files (f : gmap (list string) content) (st : state) : state :=
  State (datastore_root st) f (dirs st) (_task_counters st) (_last_run_id st).
Definition set_dirs (d : gset (list string)) (st : state) : state :=
  State (datastore_root st) (files st) d (_task_counters st) (_last_run_id st).
Definition set_task_counters (c : gmap string Z) (st : state) : state :=
  State (datastore_root st) (files st) (dirs st) c (_last_run_id st).
Definition set_last_run_id (n : Z) (st : state) : state :=
  State (datastore_root st) (files st) (dirs st) (_task_counters st) n.

(** A process that has just started on the disk of [st]: the module-level
    counters have their initial values. *)
Definition restart (st : state) : state :=
  State (datastore_root st) (files st) (dirs st) ∅ 0.

(** What an operation reads from its environment; the clock is read once
    for each call of an operation of the API. *)
Record env := Env {
  time_time : Q;
  get_username : option string
}.

(** The exceptions of the model: a provider call while
    [LocalStorage.datastore_root] is unset, which [setup] excludes and whose
    fallback to the Metaflow configuration is not modelled, and the failure
    of a tag mutation. *)
Inductive exn :=
| StoreNotSetUp
| MetaflowTaggingError.

Inductive result (A : Type) :=
| Ok (a : A)
| Raise (e : exn).
Arguments Ok {A} a.
Arguments Raise {A} e.

(** Operations read and write the state and may raise. *)
Definition M (A : Type) : Type := state → result (A * state).

Definition ret {A} (a : A) : M A := λ st, Ok (a, st).
Definition bind {A B} (m : M A) (k : A → M B) : M B :=
  λ st, match m st with
        | Ok (a, st') => k a st'
        | Raise e => Raise e
        end.
Definition raise {A} (e : exn) : M A := λ _, Raise e.
Definition gets {A} (f : state → A) : M A := λ st, Ok (f st, st).
Definition modify (f : state → state) : M unit := λ st, Ok (tt, f st).

#[export] Instance M_ret : MRet M := @ret.
#[export] Instance M_bind : MBind M := λ A B k m, bind m k.

(** *** The provider's file operations *)

(** Modelled from the spec: [LocalMetadataProvider._get_metadir] is not in
    this repository.  Layout contract of the Object Store: one directory
    per hierarchy level under the root, with a reserved subdirectory
    [_meta] that holds the JSON files. *)
Definition _get_metadir (key : list string) : M (list string) :=
  root ← gets datastore_root;
  match root with
  | Some r => ret (r ++ key ++ ["_meta"])
  | None => raise StoreNotSetUp
  end.

(** The non-empty prefixes of [p] below [base]. *)
Fixpoint ancestors (base p : list string) : list (list string) :=
  match p with
  | [] => []
  | c :: p' => (base ++ [c]) :: ancestors (base ++ [c]) p'
  end.

(** [os.makedirs(p, exist_ok=True)]. *)
Definition makedirs (p : list string) : M unit :=
  modify (λ st, set_dirs (list_to_set (ancestors [] p) ∪ dirs st) st).

(** Modelled from the spec: [LocalMetadataProvider._create_and_get_metadir]
    is not in this repository.  [create] unconditionally builds the
    containing directory (idempotent mkdir). *)
Definition _create_and_get_metadir (key : list string) : M (list string) :=
  d ← _get_metadir key;
  makedirs d ;;
  ret d.

Definition write_file (p : list string) (c : content) : M unit :=
  modify (λ st, set_files (<[p := c]> (files st)) st).

(** Modelled from the spec: [LocalMetadataProvider._save_meta] is not in
    this repository.  One file [<name>.json] per logical record, each
    written atomically; a later write of a name replaces the earlier one.
    The dictionary is the list of its items in insertion order. *)
Fixpoint _save_meta (meta_dir : list string) (metadict : list (string * content))
  : M unit :=
  match metadict with
  | [] => ret tt
  | (name, datum) :: rest =>
      write_file (meta_dir ++ [name +:+ ".json"]) datum ;;
      _save_meta meta_dir rest
  end.

(** Modelled from the spec: [LocalMetadataProvider._read_json_file] is not
    in this repository.  Reads one file. *)
Definition _read_json_file (p : list string) : M (option content) :=
  gets (λ st, files st !! p).

(** Modelled from the spec: [LocalMetadataProvider.get_object] with the
    relation ["self"] is not in this repository.  It reads exactly the
    file [_self.json] of the entity and never raises on missing data. *)
Definition get_object_self (key : list string) : M (option entity) :=
  d ← _get_metadir key;
  c ← _read_json_file (d ++ ["_self.json"]);
  match c with
  | Some (Self r) => ret (Some r)
  | _ => ret None
  end.

(** [os.path.isdir]. *)
Definition isdir (p : list string) : M bool :=
  gets (λ st, bool_decide (p ∈ dirs st)).

(** [glob.iglob(pattern)], in the order of the directory listings (which
    is not specified).  Every path that can match the patterns of this
    module ends in a file. *)
Definition iglob (st : state) (pattern : list string) : list (list string) :=
  filter (λ p, path_match pattern p = true) (fst <$> map_to_list (files st)).

(** *** Task ID counter *)

(** [parts[-3]]; every path that the pattern of the scan matches has six
    components below the root. *)
Definition third_from_end (parts : list string) : string :=
  default "" (rev parts !! 2%nat).

(** The loop body of [_scan_max_task_id]. *)
Definition scan_step (max_id : Z) (p : list string) : Z :=
  match py_int (third_from_end p) with
  | Some n => Z.max max_id n
  | None => max_id
  end.

Definition _scan_max_task_id (st : state) (flow_name run_id : string) : Z :=
  match datastore_root st with
  | None => 0
  | Some root =>
      let pattern := root ++ [flow_name; run_id; "*"; "*"; "_meta"; "_self.json"] in
      foldl scan_step 0 (iglob st pattern)
  end.

Definition counter_key (flow_name run_id : string) : string :=
  flow_name +:+ "/" +:+ run_id.

Definition _next_task_id (flow_name run_id : string) : M string :=
  let key := counter_key flow_name run_id in
  λ st,
    let counters :=
      match _task_counters st !! key with
      | Some _ => _task_counters st
      | None => <[key := _scan_max_task_id st flow_name run_id]> (_task_counters st)
      end in
    let n := default 0 (counters !! key) + 1 in
    Ok (py_str n, set_task_counters (<[key := n]> counters) st).

(** *** Run ID generation *)

(** [int(time.time() * 1e6)]. *)
Definition wall_micros (e : env) : Z := int_of_float (time_time e * 1000000).

Definition new_run_id (e : env) : M string :=
  λ st,
    let wall := wall_micros e in
    let new_id := Z.max wall (_last_run_id st + 1) in
    Ok (py_str new_id, set_last_run_id new_id st).

(** *** Object creation helpers *)

(** [get_username() or "unknown"]; the import of [metaflow.util] is taken
    to succeed. *)
Definition _get_username (e : env) : string :=
  or_str (get_username e) "unknown".

Definition _ts_now (e : env) : Z := py_round (time_time e * 1000).

Definition _build_flow_record (e : env) (flow_name : string) (b : body) : entity :=
  {| flow_id := flow_name;
     run_number := None; step_name := None; task_id := None;
     user_name := or_str (b_user_name b) (_get_username e);
     tags := or_list (b_tags b);
     system_tags := or_list (b_system_tags b);
     ts_epoch := or_int (b_ts_epoch b) (_ts_now e) |}.

Definition _build_run_record (e : env) (flow_name run_id : string) (b : body)
  : entity :=
  {| flow_id := flow_name;
     run_number := Some run_id; step_name := None; task_id := None;
     user_name := or_str (b_user_name b) (_get_username e);
     tags := or_list (b_tags b);
     system_tags := or_list (b_system_tags b);
     ts_epoch := or_int (b_ts_epoch b) (_ts_now e) |}.

Definition _build_step_record (e : env) (flow_name run_id step : string)
  (b : body) : entity :=
  {| flow_id := flow_name;
     run_number := Some run_id; step_name := Some step; task_id := None;
     user_name := or_str (b_user_name b) (_get_username e);
     tags := or_list (b_tags b);
     system_tags := or_list (b_system_tags b);
     ts_epoch := or_int (b_ts_epoch b) (_ts_now e) |}.

Definition _build_task_record (e : env) (flow_name run_id step task : string)
  (b : body) : entity :=
  {| flow_id := flow_name;
     run_number := Some run_id; step_name := Some step; task_id := Some task;
     user_name := or_str (b_user_name b) (_get_username e);
     tags := or_list (b_tags b);
     system_tags := or_list (b_system_tags b);
     ts_epoch := or_int (b_ts_epoch b) (_ts_now e) |}.

(** *** Public API *)

(** [if existing:] holds for every record that was read: a record is a
    dictionary with at least the key [flow_id]. *)
Definition get_or_create_flow (e : env) (flow_name : string) (b : body)
  : M (entity * bool) :=
  existing ← get_object_self [flow_name];
  match existing with
  | Some r => ret (r, false)
  | None =>
      let record := _build_flow_record e flow_name b in
      meta_dir ← _create_and_get_metadir [flow_name];
      _save_meta meta_dir [("_self", Self record)] ;;
      ret (record, true)
  end.

Definition get_flow (flow_name : string) : M (option entity) :=
  get_object_self [flow_name].

Definition create_run (e : env) (flow_name : string) (b : body) : M entity :=
  get_or_create_flow e flow_name b ;;
  run_id ← new_run_id e;
  let record := _build_run_record e flow_name run_id b in
  meta_dir ← _create_and_get_metadir [flow_name; run_id];
  _save_meta meta_dir [("_self", Self record)] ;;
  ret record.

Definition get_run (flow_name run_id : string) : M (option entity) :=
  get_object_self [flow_name; run_id].

Definition get_or_create_step (e : env) (flow_name run_id step : string)
  (b : body) : M (entity * bool) :=
  existing ← get_object_self [flow_name; run_id; step];
  match existing with
  | Some r => ret (r, false)
  | None =>
      let record := _build_step_record e flow_name run_id step b in
      meta_dir ← _create_and_get_metadir [flow_name; run_id; step];
      _save_meta meta_dir [("_self", Self record)] ;;
      ret (record, true)
  end.

Definition get_step (flow_name run_id step : string) : M (option entity) :=
  get_object_self [flow_name; run_id; step].

Definition create_task (e : env) (flow_name run_id step : string) (b : body)
  : M entity :=
  get_or_create_step e flow_name run_id step b ;;
  task ← _next_task_id flow_name run_id;
  let record := _build_task_record e flow_name run_id step task b in
  meta_dir ← _create_and_get_metadir [flow_name; run_id; step; task];
  _save_meta meta_dir [("_self", Self record)] ;;
  ret record.

Definition get_task (flow_name run_id step task : string) : M (option entity) :=
  get_object_self [flow_name; run_id; step; task].

(** The key of an artifact in the task's [_meta] directory:
    ["%s_artifact_%s" % (a.get("attempt_id", 0), a["name"])]. *)
Definition artifact_key (a : artifact) : string :=
  py_str (default 0 (art_attempt_id a)) +:+ "_artifact_" +:+ art_name a.

Definition register_artifacts (flow_name run_id step task : string)
  (artifacts : list artifact) : M unit :=
  meta_dir ← _create_and_get_metadir [flow_name; run_id; step; task];
  let art_dict := (λ a, (artifact_key a, Art a)) <$> artifacts in
  _save_meta meta_dir art_dict.

(** Read the files in the order the glob yields them; a file that cannot be
    read is left out. *)
Fixpoint read_all (paths : list (list string)) : M (list content) :=
  match paths with
  | [] => ret []
  | p :: rest =>
      obj ← _read_json_file p;
      objs ← read_all rest;
      ret (match obj with Some o => o :: objs | None => objs end)
  end.

Definition get_artifacts (flow_name run_id step task : string)
  (attempt : option Z) : M (list content) :=
  meta_dir ← _get_metadir [flow_name; run_id; step; task];
  is_dir ← isdir meta_dir;
  if negb is_dir then ret []
  else
    let prefix :=
      match attempt with
      | Some a => py_str a +:+ "_artifact_"
      | None => "*_artifact_"
      end in
    let pattern := meta_dir ++ [prefix +:+ "*.json"] in
    paths ← gets (λ st, iglob st pattern);
    read_all paths.

(** Modelled from the spec: [LocalMetadataProvider._mutate_user_tags_for_run]
    is not in this repository.  Tag mutation: read the current run record,
    compute (existingTags ∪ toAdd) \ toRemove, write back; a run that cannot
    be read is an internal failure. *)
Definition _mutate_user_tags_for_run (flow_name run_id : string)
  (tags_to_add tags_to_remove : list string) : M (gset string) :=
  run ← get_object_self [flow_name; run_id];
  match run with
  | None => raise MetaflowTaggingError
  | Some r =>
      let final : gset string :=
        (list_to_set (tags r) ∪ list_to_set tags_to_add)
          ∖ list_to_set tags_to_remove in
      let r' := Entity (flow_id r) (run_number r) (step_name r) (task_id r)
                  (user_name r) (elements final) (system_tags r) (ts_epoch r) in
      meta_dir ← _get_metadir [flow_name; run_id];
      _save_meta meta_dir [("_self", Self r')] ;;
      ret final
  end.

Definition mutate_tags (flow_name run_id : string)
  (tags_to_add tags_to_remove : list string) : M (gset string) :=
  _mutate_user_tags_for_run flow_name run_id tags_to_add tags_to_remove.

(** *** Observing a call *)

(** What a call returned, if it returned. *)
Definition value {A} (r : result (A * state)) : option A :=
  match r with
  | Ok (a, _) => Some a
  | Raise _ => None
  end.

(** The state after a call from [st]. *)
Definition state_after {A} (st : state) (r : result (A * state)) : state :=
  match r with
  | Ok (_, st') => st'
  | Raise _ => st
  end.

(** *** Sequences of allocations *)

(** Successive calls of [new_run_id], one for each reading of the clock. *)
Fixpoint new_run_ids (es : list env) : M (list string) :=
  match es with
  | [] => mret []
  | e :: es' =>
      i ← new_run_id e;
      rest ← new_run_ids es';
      mret (i :: rest)
  end.

(** The logical clock in the words of the specification: each allocation
    takes max(currentWallClockMicros, lastIssued + 1) and stores it as the
    new lastIssued. *)
Fixpoint lamport (last_issued : Z) (walls : list Z) : list Z :=
  match walls with
  | [] => []
  | w :: walls' =>
      let n := Z.max w (last_issued + 1) in
      n :: lamport n walls'
  end.

(** The part of the state that is on disk. *)
Record disk := Disk {
  d_root : option (list string);
  d_files : gmap (list string) content;
  d_dirs : gset (list string)
}.

Definition on_disk (d : disk) (st : state) : state :=
  State (d_root d) (d_files d) (d_dirs d) (_task_counters st) (_last_run_id st).

(** A request for a task ID: the flow, the run, and the disk as the request
    finds it (other operations and other processes write between two
    requests). *)
Record request := Request {
  req_disk : disk;
  req_flow : string;
  req_run : string
}.

(** Successive calls of [_next_task_id] in one process. *)
Fixpoint next_task_ids (reqs : list request) : M (list string) :=
  match reqs with
  | [] => mret []
  | r :: reqs' =>
      modify (on_disk (req_disk r)) ;;
      i ← _next_task_id (req_flow r) (req_run r);
      rest ← next_task_ids reqs';
      mret (i :: rest)
  end.

(** The task directory names that the seed scan finds and [int()] accepts,
    as integers. *)
Definition numeric_task_dirs (st : state) (flow_name run_id : string) : list Z :=
  match datastore_root st with
  | None => []
  | Some root =>
      omap (λ p, py_int (third_from_end p))
        (iglob st (root ++ [flow_name; run_id; "*"; "*"; "_meta"; "_self.json"]))
  end.

(** The IDs that the requests for the counter [key] received. *)
Fixpoint ids_of_key (key : string) (reqs : list request) (ids : list string)
  : list string :=
  match reqs, ids with
  | r :: reqs', i :: ids' =>
      if String.eqb (counter_key (req_flow r) (req_run r)) key
      then i :: ids_of_key key reqs' ids'
      else ids_of_key key reqs' ids'
  | _, _ => []
  end.

End Store.

(** ** The heartbeat routes of [server.py] *)

Module Server.

Definition _HEARTBEAT_INTERVAL_SECONDS : Z := 10.

(** The module-level timestamp and the store that the routes work on. *)
Record state := State {
  last_heartbeat_at : Q;
  store : Store.state
}.

(** A JSON response whose body is an object with integer values. *)
Record response := Response {
  status_code : Z;
  content : list (string * Z)
}.

(** [JSONResponse(content)]; the status code defaults to 200. *)
Definition JSONResponse (c : list (string * Z)) : response := Response 200 c.

(** [POST /flows/{flow_name}/runs/{run_id}/heartbeat]; [now] is the value
    of [time.time()]. *)
Definition run_heartbeat (now : Q) (flow_name run_id : string) (st : state)
  : response * state :=
  (JSONResponse [("wait_time_in_seconds", _HEARTBEAT_INTERVAL_SECONDS)],
   State now (store st)).

(** [POST /flows/{flow_name}/runs/{run_id}/steps/{step_name}/tasks/{task_id}/heartbeat]. *)
Definition task_heartbeat (now : Q) (flow_name run_id step_name task_id : string)
  (st : state) : response * state :=
  (JSONResponse [("wait_time_in_seconds", _HEARTBEAT_INTERVAL_SECONDS)],
   State now (store st)).

End Server.

(** ** [daemon.py] *)

Module Daemon.
Import Py.

(** A value that [json.load] returns. *)
#[local] Unset Elimination Schemes.
Inductive json :=
| JNull
| JBool (b : bool)
| JNum (q : Q)
| JStr (s : string)
| JArr (l : list json)
| JObj (items : list (string * json)).
#[local] Set Elimination Schemes.

Record DaemonState := MkDaemonState {
  pid : Z;
  port : Z;
  metaflow_root : string;
  started_at : Q
}.

Definition to_dict (s : DaemonState) : json :=
  JObj [("pid", JNum (inject_Z (pid s)));
        ("port", JNum (inject_Z (port s)));
        ("metaflow_root", JStr (metaflow_root s));
        ("started_at", JNum (started_at s))].

Fixpoint lookup_key (k : string) (items : list (string * json)) : option json :=
  match items with
  | [] => None
  | (k', v) :: rest => if String.eqb k k' then Some v else lookup_key k rest
  end.

(** [d[k]]: [None] is the [KeyError], or the [TypeError] of a value that
    cannot be indexed by a string. *)
Definition getitem (d : json) (k : string) : option json :=
  match d with
  | JObj items => lookup_key k items
  | _ => None
  end.

(** [d.get(k, dflt)]; [None] is the [AttributeError] of a value that is
    not a dictionary. *)
Definition get_default (d : json) (k : string) (dflt : json) : option json :=
  match d with
  | JObj items => Some (default dflt (lookup_key k items))
  | _ => None
  end.

(** [int(v)]; [None] is [TypeError] or [ValueError]. *)
Definition int_of (v : json) : option Z :=
  match v with
  | JNum q => Some (int_of_float q)
  | JBool b => Some (if b then 1 else 0)
  | JStr s => py_int s
  | _ => None
  end.

(** What [json.load] makes of a file: a decoding error or a value. *)
Inductive file_text :=
| NotJson
| Json (j : json).

(** The outcome of [os.kill(pid, 0)]. *)
Inductive kill_outcome :=
| Delivered
| ProcessLookupError
| PermissionError
| OtherError.

(** The two files of the state directory and the process table. *)
Record os := Os {
  state_file : option file_text;
  pid_file : option string;
  kill0 : Z → kill_outcome
}.

(** A call returns a value or lets an exception escape. *)
Inductive outcome (A : Type) :=
| Returned (a : A)
| Raised.
Arguments Returned {A} a.
Arguments Raised {A}.

Definition _write_state (s : DaemonState) (o : os) : os :=
  Os (Some (Json (to_dict s))) (Some (py_str (pid s))) (kill0 o).

(** [os.remove] of both files; a missing file is passed over. *)
Definition _clear_state (o : os) : os := Os None None (kill0 o).

Definition _is_alive (p : Z) (o : os) : outcome bool :=
  match kill0 o p with
  | Delivered => Returned true
  | ProcessLookupError | PermissionError => Returned false
  | OtherError => Raised
  end.

Section Conversions.
(** [float()] of a string and [str()] of a value that is not a string
    are builtins that no property below depends on. *)
Variable float_of_str : string → option Q.
Variable repr : json → string.

Definition float_of (v : json) : option Q :=
  match v with
  | JNum q => Some q
  | JBool b => Some (if b then 1%Q else 0%Q)
  | JStr s => float_of_str s
  | _ => None
  end.

Definition str_of (v : json) : string :=
  match v with
  | JStr s => s
  | _ => repr v
  end.

(** [DaemonState.from_dict]; [None] when any of its lookups or
    conversions raises. *)
Definition from_dict (d : json) : option DaemonState :=
  p ← getitem d "pid" ≫= int_of;
  q ← getitem d "port" ≫= int_of;
  r ← getitem d "metaflow_root";
  t ← get_default d "started_at" (JNum 0) ≫= float_of;
  Some (MkDaemonState p q (str_of r) t).

(** Any exception of the [try] block gives [None]. *)
Definition _read_state (o : os) : option DaemonState :=
  match state_file o with
  | None => None
  | Some NotJson => None
  | Some (Json j) => from_dict j
  end.

Definition status (o : os) : outcome (option DaemonState) * os :=
  match _read_state o with
  | None => (Returned None, o)
  | Some st =>
      match _is_alive (pid st) o with
      | Raised => (Raised, o)
      | Returned false => (Returned None, _clear_state o)
      | Returned true => (Returned (Some st), o)
      end
  end.

End Conversions.

(** *** The idle monitor *)

(** What the monitor thread and the request handlers share: the heartbeat
    timestamp of [server.py] and the [should_exit] flag of the uvicorn
    server; [monitoring] is false once the loop has left through its
    [break]. *)
Record monitor := Monitor {
  last_heartbeat_at : Q;
  should_exit : bool;
  monitoring : bool
}.

(** One turn of the loop of [_idle_monitor]: its [time.sleep(30)] has
    returned and [now] is the value of [time.time()]. *)
Definition monitor_wake (idle_timeout : Z) (now : Q) (m : monitor) : monitor :=
  if monitoring m then
    let silence := (now - last_heartbeat_at m)%Q in
    if negb (Qle_bool silence (inject_Z idle_timeout))
    then Monitor (last_heartbeat_at m) true false
    else m
  else m.

(** A heartbeat route has run at [now]. *)
Definition heartbeat (now : Q) (m : monitor) : monitor :=
  Monitor now (should_exit m) (monitoring m).

(** What happens in the daemon, in the order in which it happens: a
    heartbeat route runs, or the monitor wakes from its sleep of 30 seconds. *)
Inductive event :=
| Heartbeat (now : Q)
| Wake (now : Q).

Definition step (idle_timeout : Z) (m : monitor) (ev : event) : monitor :=
  match ev with
  | Heartbeat now => heartbeat now m
  | Wake now => monitor_wake idle_timeout now m
  end.

Definition run_events (idle_timeout : Z) (m : monitor) (evs : list event) : monitor :=
  foldl (step idle_timeout) m evs.

End Daemon.

(** ** [store.py]: set-up and metadata keys *)

Module Setup.
Import Py Store.

Definition _METAFLOW_DIR : string := ".metaflow".

(** The store with the module-level flag [_initialized]. *)
Record process := Process {
  _initialized : bool;
  store_state : state
}.

(** [setup(metaflow_root)]; [os.path.realpath] changes nothing on a disk
    without symbolic links. *)
Definition setup (metaflow_root : list string) (p : process) : process :=
  if _initialized p then p
  else
    let metadir := metaflow_root ++ [_METAFLOW_DIR] in
    let st := store_state p in
    Process true
      (State (Some metadir) (files st)
         (list_to_set (ancestors [] metadir) ∪ dirs st)
         (_task_counters st) (_last_run_id st)).

(** A metadata record: its field name when it has one, and its other
    fields. *)
Record metadata_entry := MetadataEntry {
  md_field_name : option string;
  md_fields : list (string * string)
}.

(** ["sysmeta_%s_%d" % (m.get("field_name", "unknown"), n)]. *)
Definition metadata_key (m : metadata_entry) (n : Z) : string :=
  "sysmeta_" +:+ default "unknown" (md_field_name m) +:+ "_" +:+ py_str n.

(** The dictionary [meta_dict] that [register_metadata] hands to
    [_save_meta], as the list of its items. *)
Definition meta_dict (e : env) (metadata : list metadata_entry)
  : list (string * metadata_entry) :=
  let ts := py_round (time_time e * 1000) in
  imap (λ i m, (metadata_key m (ts + Z.of_nat i), m)) metadata.

End Setup.

(** ** The routes of [server.py] that create and fetch entities *)

Module Routes.
Import Py Store.

(** What [request.json()] makes of the body of a request. *)
Inductive request_json :=
| NoJson
| JsonNull
| JsonObject (b : body).

(** [_json_body]: the empty dictionary stands for a body that is missing,
    is not JSON, or is [null]. *)
Definition _json_body (rq : request_json) : body :=
  match rq with
  | JsonObject b => b
  | NoJson | JsonNull => Body None None None None
  end.

(** The body of a JSON response. *)
Inductive payload :=
| PEntity (r : entity)
| PContents (l : list content)
| PEmpty.

(** What a handler hands to FastAPI: a response, an [HTTPException], or an
    exception of the store that it does not catch. *)
Inductive reply :=
| JSONResponse (status_code : Z) (body : payload)
| HTTPException (status_code : Z) (detail : string)
| Unhandled (e : exn).

Definition handle {A} (r : result (A * state)) (st : state)
    (k : A → reply) : reply * state :=
  match r with
  | Ok (a, st') => (k a, st')
  | Raise e => (Unhandled e, st)
  end.

Definition get_flow (flow_name : string) (st : state) : reply * state :=
  handle (Store.get_flow flow_name st) st (λ obj,
    match obj with
    | None => HTTPException 404 "Flow not found"
    | Some r => JSONResponse 200 (PEntity r)
    end).


Definition get_run (flow_name run_id : string) (st : state) : reply * state :=
  handle (Store.get_run flow_name run_id st) st (λ obj,
    match obj with
    | None => HTTPException 404 "Run not found"
    | Some r => JSONResponse 200 (PEntity r)
    end).

Definition create_run (e : env) (flow_name : string) (rq : request_json)
    (st : state) : reply * state :=
  handle (Store.create_run e flow_name (_json_body rq) st) st (λ obj,
    JSONResponse 201 (PEntity obj)).

Definition get_step (flow_name run_id step : string) (st : state)
  : reply * state :=
  handle (Store.get_step flow_name run_id step st) st (λ obj,
    match obj with
    | None => HTTPException 404 "Step not found"
    | Some r => JSONResponse 200 (PEntity r)
    end).


Definition get_task (flow_name run_id step task : string) (st : state)
  : reply * state :=
  handle (Store.get_task flow_name run_id step task st) st (λ obj,
    match obj with
    | None => HTTPException 404 "Task not found"
    | Some r => JSONResponse 200 (PEntity r)
    end).

Definition create_task (e : env) (flow_name run_id step : string)
    (rq : request_json) (st : state) : reply * state :=
  handle (Store.create_task e flow_name run_id step (_json_body rq) st) st
    (λ obj, JSONResponse 201 (PEntity obj)).

(** The body of an artifact registration: a list, or one object that the
    handler wraps into a list. *)
Inductive artifacts_json :=
| ArtifactList (l : list artifact)
| ArtifactObject (a : artifact).

Definition register_artifacts (flow_name run_id step task : string)
    (rq : artifacts_json) (st : state) : reply * state :=
  let artifacts :=
    match rq with
    | ArtifactList l => l
    | ArtifactObject a => [a]
    end in
  handle (Store.register_artifacts flow_name run_id step task artifacts st) st
    (λ _, JSONResponse 200 PEmpty).



End Routes.

(** ** [daemon.py]: stopping and starting *)

Module Supervisor.
Import Py Daemon.

(** [DaemonState.url]. *)
Definition url (s : DaemonState) : string :=
  "http://127.0.0.1:" +:+ py_str (port s).

(** The operating system as [stop] sees it: the files and the process table
    of [os], the outcome of [os.kill(pid, SIGTERM)] for each process, and
    the processes that have been sent the signal. *)
Record world := World {
  w_os : os;
  sigterm : Z → kill_outcome;
  signalled : list Z
}.

(** How the wait of [start] for the daemon ends; [Pending] is a wait that
    the readings given do not finish. *)
Inductive poll_outcome :=
| Reachable
| TimedOut
| Pending.

(** The [while ... else] loop of [start].  Each turn reads the clock; before
    the deadline it probes [/ping], leaves the loop on success and sleeps on
    failure; at the deadline the [else] branch runs.  A reading is the value
    of [time.time()] and what the probe answers if it is made. *)
Fixpoint poll (deadline : Q) (readings : list (Q * bool)) : poll_outcome :=
  match readings with
  | [] => Pending
  | (now, ok) :: rest =>
      if negb (Qle_bool deadline now)
      then (if ok then Reachable else poll deadline rest)
      else TimedOut
  end.

(** What [start] reads from its environment. *)
Record start_env := StartEnv {
  executable : string;
  getcwd : string;
  find_free_port : Z;
  child_pid : Z;
  deadline_clock : Q;
  started_clock : Q;
  readings : list (Q * bool)
}.

(** How [start] ends: with the state of a daemon that was running, with the
    state of the daemon it spawned, or with a [RuntimeError] after it has
    killed the child. *)
Inductive start_outcome :=
| AlreadyRunning (s : DaemonState)
| Started (s : DaemonState) (cmd : list string)
| StartFailed (cmd : list string)
| StartPending (cmd : list string)
| StatusRaised.

Section Conversions.
Variable float_of_str : string → option Q.
Variable repr : json → string.

Definition stop (w : world) : outcome bool * world :=
  match status float_of_str repr (w_os w) with
  | (Raised, o) => (Raised, World o (sigterm w) (signalled w))
  | (Returned None, o) => (Returned false, World o (sigterm w) (signalled w))
  | (Returned (Some s), o) =>
      match sigterm w (pid s) with
      | Delivered =>
          (Returned true,
           World (_clear_state o) (sigterm w) (signalled w ++ [pid s]))
      | ProcessLookupError =>
          (Returned true, World (_clear_state o) (sigterm w) (signalled w))
      | PermissionError | OtherError =>
          (Raised, World o (sigterm w) (signalled w))
      end
  end.

(** [start]; the files are returned as [start] itself leaves them: the
    record of the new daemon is written by the child, in [_run_server]. *)
Definition start (port : Z) (metaflow_root : option string) (idle_timeout : Z)
    (env : start_env) (o : os) : start_outcome * os :=
  match status float_of_str repr o with
  | (Raised, o') => (StatusRaised, o')
  | (Returned (Some existing), o') => (AlreadyRunning existing, o')
  | (Returned None, o') =>
      let metaflow_root := default (getcwd env) metaflow_root in
      let port := if port =? 0 then find_free_port env else port in
      let cmd := [executable env; "-m"; "metaflow_local_service.daemon";
                  "--port"; py_str port;
                  "--metaflow-root"; metaflow_root;
                  "--idle-timeout"; py_str idle_timeout] in
      let deadline := (deadline_clock env + 10)%Q in
      let state := MkDaemonState (child_pid env) port metaflow_root
                     (started_clock env) in
      match poll deadline (readings env) with
      | Reachable => (Started state cmd, o')
      | TimedOut => (StartFailed cmd, o')
      | Pending => (StartPending cmd, o')
      end
  end.

End Conversions.

End Supervisor.

(** ** Vocabulary of the properties *)

Module Vocabulary.
Import Py Glob Store.

Definition is_decimal_digit (d : Z) : Prop := 0 <= d < 10.

(** The value of a list of digits, least significant first. *)
Definition value_lsf (ds : list Z) : Z := foldr (λ d v, d + 10 * v) 0 ds.

(** Horner's rule, most significant digit first. *)
Definition horner (acc : Z) (ds : list Z) : Z := foldl (λ a d, 10 * a + d) acc ds.

Definition counters_nonneg (c : gmap string Z) : Prop :=
  ∀ k n, c !! k = Some n → 0 <= n.

(** No component is read as a pattern by [glob]. *)
Definition literal (p : list string) : Prop :=
  Forall (λ c, has_magic c = false) p.

(** The file of the record of the entity [key]. *)
Definition self_file (root key : list string) : list string :=
  root ++ key ++ ["_meta"; "_self.json"].

(** The state after [_create_and_get_metadir] and [_save_meta] have written
    the record [r] of the entity [key]. *)
Definition with_self (root key : list string) (r : entity) (st : state) : state :=
  State (datastore_root st)
    (<[self_file root key := Self r]> (files st))
    (list_to_set (ancestors [] (root ++ key ++ ["_meta"])) ∪ dirs st)
    (_task_counters st) (_last_run_id st).




(** The loop of the idle monitor runs exactly as long as the flag is down. *)
Definition monitor_ok (m : Daemon.monitor) : Prop :=
  Daemon.monitoring m = negb (Daemon.should_exit m).

End Vocabulary.

(** * Properties *)

(** ** Decimal strings *)

Module PyFacts.
Import Py Vocabulary.

#[local] Arguments digit_char : simpl never.
#[local] Arguments is_digit : simpl never.
#[local] Arguments digit_val : simpl never.
#[local] Arguments is_space : simpl never.
#[local] Arguments Z.mul : simpl never.
#[local] Arguments Z.add : simpl never.

Lemma digit_cases (d : Z) :
  is_decimal_digit d →
  d = 0 ∨ d = 1 ∨ d = 2 ∨ d = 3 ∨ d = 4 ∨ d = 5 ∨ d = 6 ∨ d = 7 ∨ d = 8 ∨ d = 9.
Proof. unfold is_decimal_digit. lia. Qed.

Ltac each_digit d H :=
  destruct (digit_cases d H) as [->|[->|[->|[->|[->|[->|[->|[->|[->| ->]]]]]]]]].

Lemma is_digit_digit_char d : is_decimal_digit d → is_digit (digit_char d) = true.
Proof. intros H. each_digit d H; reflexivity. Qed.

Lemma digit_val_digit_char d : is_decimal_digit d → digit_val (digit_char d) = d.
Proof. intros H. each_digit d H; reflexivity. Qed.

Lemma is_space_digit_char d : is_decimal_digit d → is_space (digit_char d) = false.
Proof. intros H. each_digit d H; reflexivity. Qed.

Lemma digit_char_not_sign d :
  is_decimal_digit d →
  Ascii.eqb (digit_char d) "-" = false ∧ Ascii.eqb (digit_char d) "+" = false.
Proof. intros H. each_digit d H; split; reflexivity. Qed.

Lemma horner_rev ds : horner 0 (rev ds) = value_lsf ds.
Proof.
  induction ds as [|d ds IH]; [done|].
  simpl. unfold horner in *. rewrite foldl_app. simpl. rewrite IH.
  unfold value_lsf. lia.
Qed.

Lemma digits_lsf_spec fuel n :
  0 <= n < 2 ^ Z.of_nat fuel →
  (0 < fuel)%nat →
  value_lsf (digits_lsf fuel n) = n
  ∧ Forall is_decimal_digit (digits_lsf fuel n)
  ∧ digits_lsf fuel n ≠ [].
Proof.
  revert n. induction fuel as [|fuel IH]; intros n Hn Hfuel; [lia|].
  simpl. pose proof (Z.mod_pos_bound n 10 ltac:(lia)) as Hmod.
  pose proof (Z.div_mod n 10 ltac:(lia)) as Hdiv.
  destruct (Z.eqb_spec (n / 10) 0) as [Hz|Hnz].
  - split; [|split]; [simpl; lia | repeat constructor; unfold is_decimal_digit; lia | done].
  - assert (0 < n / 10) by (pose proof (Z.div_pos n 10); lia).
    assert (Hlt : n / 10 < 2 ^ Z.of_nat fuel).
    { rewrite Nat2Z.inj_succ, Z.pow_succ_r in Hn by lia. lia. }
    assert (0 < fuel)%nat.
    { destruct fuel; [simpl in Hlt; lia | lia]. }
    destruct (IH (n / 10)) as (Hv & Hd & _); [lia | done |].
    split; [|split]; [| constructor; [unfold is_decimal_digit; lia | done] | done].
    unfold value_lsf in *. simpl. rewrite Hv. lia.
Qed.

Lemma decimal_fuel n : 0 <= n → n < 2 ^ Z.of_nat (S (Z.to_nat (Z.log2 n))).
Proof.
  intros Hn. rewrite Nat2Z.inj_succ, Z2Nat.id by apply Z.log2_nonneg.
  destruct (Z.eq_dec n 0) as [->|]; [done|].
  apply Z.log2_spec. lia.
Qed.

(** The digits that [decimal] writes. *)
Lemma decimal_digits n :
  0 <= n →
  ∃ ds, decimal n = digit_char <$> ds ∧ Forall is_decimal_digit ds ∧ ds ≠ []
        ∧ horner 0 ds = n.
Proof.
  intros Hn. unfold decimal.
  destruct (digits_lsf_spec (S (Z.to_nat (Z.log2 n))) n) as (Hv & Hd & Hne).
  { split; [done | by apply decimal_fuel]. }
  { lia. }
  exists (rev (digits_lsf (S (Z.to_nat (Z.log2 n))) n)).
  split; [done|]. split; [by apply Forall_rev|]. split.
  - intros Hrev. apply Hne. apply (f_equal (@rev Z)) in Hrev.
    by rewrite rev_involutive in Hrev.
  - by rewrite horner_rev.
Qed.

Lemma digits_value_digits acc prev ds :
  Forall is_decimal_digit ds →
  prev = true ∨ ds ≠ [] →
  digits_value acc prev (digit_char <$> ds) = Some (horner acc ds).
Proof.
  intros Hds. revert acc prev.
  induction Hds as [|d ds Hd Hds IH]; intros acc prev Hprev.
  - destruct Hprev as [-> | ?]; done.
  - rewrite fmap_cons. cbn [digits_value].
    rewrite is_digit_digit_char, digit_val_digit_char by done.
    apply IH. by left.
Qed.

Lemma lstrip_no_space c s : is_space c = false → lstrip (c :: s) = c :: s.
Proof. intros H. simpl. by rewrite H. Qed.

Lemma lstrip_keeps_last s c :
  is_space c = false → ∃ s', lstrip (s ++ [c]) = s' ++ [c].
Proof.
  intros Hc. induction s as [|a s IH]; simpl.
  - rewrite Hc. by exists [].
  - destruct (is_space a); [done|]. by exists (a :: s).
Qed.

(** Stripping keeps a first character that is not white space. *)
Lemma strip_keeps_first c s :
  is_space c = false → ∃ s', strip (c :: s) = c :: s'.
Proof.
  intros Hc. unfold strip. rewrite lstrip_no_space by done. simpl.
  destruct (lstrip_keeps_last (rev s) c Hc) as [s' ->].
  exists (rev s'). by rewrite rev_app_distr.
Qed.

Lemma strip_no_space s : Forall (λ c, is_space c = false) s → strip s = s.
Proof.
  intros Hs. unfold strip.
  assert (Hl : ∀ l, Forall (λ c, is_space c = false) l → lstrip l = l).
  { intros l Hl. destruct Hl; [done|]. by apply lstrip_no_space. }
  rewrite (Hl s Hs), (Hl (rev s)) by by apply Forall_rev.
  apply rev_involutive.
Qed.

Lemma chars_of_chars l : chars (of_chars l) = l.
Proof. apply list_ascii_of_string_of_list_ascii. Qed.

(** [int(str(n)) == n]. *)
Lemma py_int_py_str n : py_int (py_str n) = Some n.
Proof.
  unfold py_int, py_str. destruct (Z.ltb_spec n 0) as [Hneg|Hpos].
  - destruct (decimal_digits (- n)) as (ds & Hdec & Hds & Hne & Hval); [lia|].
    rewrite chars_of_chars, Hdec, strip_no_space.
    + simpl. rewrite digits_value_digits by auto. simpl. f_equal. lia.
    + constructor; [done|]. apply Forall_fmap. eapply Forall_impl; [done|].
      intros d Hd. by apply is_space_digit_char.
  - destruct (decimal_digits n) as (ds & Hdec & Hds & Hne & Hval); [lia|].
    rewrite chars_of_chars, Hdec, strip_no_space.
    + destruct Hds as [|d ds Hd Hds]; [done|]. rewrite fmap_cons.
      destruct (digit_char_not_sign d Hd) as [-> ->].
      rewrite <-fmap_cons, digits_value_digits by auto. by rewrite Hval.
    + apply Forall_fmap. eapply Forall_impl; [done|].
      intros d Hd. by apply is_space_digit_char.
Qed.

Lemma py_str_inj n m : py_str n = py_str m → n = m.
Proof.
  intros H. apply (f_equal py_int) in H.
  rewrite !py_int_py_str in H. congruence.
Qed.

End PyFacts.

(** ** Patterns *)

Module GlobFacts.
Import Py Glob Vocabulary PyFacts.

Lemma matches_star s : matches [TStar] s = true.
Proof. induction s as [|c s IH]; [done|]. simpl in *. exact IH. Qed.

Lemma fnmatch_star n : fnmatch n "*" = true.
Proof. unfold fnmatch. simpl. apply matches_star. Qed.

Lemma component_match_star n : component_match "*" n = negb (ishidden n).
Proof.
  unfold component_match. simpl. rewrite fnmatch_star. apply andb_true_r.
Qed.

Lemma component_match_literal c n :
  has_magic c = false → component_match c n = String.eqb c n.
Proof. intros H. unfold component_match. by rewrite H. Qed.

(** Below a prefix without magic, [glob] looks in the directory that the
    prefix names. *)
Lemma path_match_literal_prefix pre pat p :
  literal pre →
  path_match (pre ++ pat) p = true ↔ ∃ q, p = pre ++ q ∧ path_match pat q = true.
Proof.
  intros Hpre. revert p. induction Hpre as [|c pre Hc Hpre IH]; intros p.
  - simpl. split; [by exists p | by intros (q & -> & ?)].
  - simpl. destruct p as [|n p].
    + split; [done | by intros (q & ? & ?)].
    + rewrite component_match_literal, andb_true_iff, String.eqb_eq, IH by done.
      split.
      * intros (-> & q & -> & Hq). by exists q.
      * intros (q & [= -> ->] & Hq). split; [done|]. by exists q.
Qed.

(** What the pattern of the seed scan matches. *)
Lemma path_match_task_records root flow run p :
  literal (root ++ [flow; run]) →
  path_match (root ++ [flow; run; "*"; "*"; "_meta"; "_self.json"]) p = true
  ↔ ∃ step task,
      p = root ++ [flow; run; step; task; "_meta"; "_self.json"]
      ∧ ishidden step = false ∧ ishidden task = false.
Proof.
  intros Hlit.
  change (root ++ [flow; run; "*"; "*"; "_meta"; "_self.json"])
    with (root ++ [flow; run] ++ ["*"; "*"; "_meta"; "_self.json"]).
  rewrite app_assoc, path_match_literal_prefix by done. split.
  - intros (q & -> & Hq).
    destruct q as [|step [|task [|m [|f [|? ?]]]]]; simpl in Hq;
      rewrite ?andb_false_r in Hq; try done.
    rewrite !component_match_star in Hq.
    rewrite !component_match_literal in Hq by done.
    rewrite !andb_true_iff, !negb_true_iff, !String.eqb_eq in Hq.
    destruct Hq as (Hs & Ht & <- & <- & _).
    exists step, task. by rewrite <-app_assoc.
  - intros (step & task & -> & Hs & Ht).
    exists [step; task; "_meta"; "_self.json"]. split; [by rewrite <-app_assoc|].
    simpl. rewrite !component_match_star, Hs, Ht. done.
Qed.

(** *** Patterns with one star *)

Lemma chars_app s1 s2 : chars (s1 +:+ s2) = chars s1 ++ chars s2.
Proof. induction s1 as [|c s1 IH]; [done|]. simpl. by f_equal. Qed.


Lemma chars_inj s1 s2 : chars s1 = chars s2 → s1 = s2.
Proof.
  intros H. apply (f_equal of_chars) in H.
  unfold of_chars, chars in H. by rewrite !string_of_list_ascii_of_string in H.
Qed.







(** The characters of [str(n)] are digits, after a minus sign when [n] is
    negative. *)
Lemma py_str_chars n :
  ∃ c s, chars (py_str n) = c :: s
         ∧ Forall (λ c, is_digit c = true ∨ c = "-"%char) (c :: s).
Proof.
  assert (Hdigits : ∀ ds, Forall is_decimal_digit ds →
            Forall (λ c, is_digit c = true ∨ c = "-"%char) (digit_char <$> ds)).
  { intros ds Hds. apply Forall_fmap. eapply Forall_impl; [done|].
    intros d Hd. left. by apply is_digit_digit_char. }
  unfold py_str. destruct (Z.ltb_spec n 0).
  - destruct (decimal_digits (- n)) as (ds & -> & Hds & _) ; [lia|].
    rewrite chars_of_chars. eexists _, _. split; [done|].
    constructor; [by right | by apply Hdigits].
  - destruct (decimal_digits n) as (ds & Hdec & Hds & Hne & _); [lia|].
    rewrite chars_of_chars, Hdec. destruct ds as [|d ds]; [done|].
    rewrite fmap_cons. eexists _, _. split; [done|].
    rewrite <-fmap_cons. by apply Hdigits.
Qed.

Lemma digit_or_minus_plain c :
  is_digit c = true ∨ c = "-"%char →
  magic_char c = false ∧ c ≠ "_"%char ∧ c ≠ "."%char.
Proof.
  intros [Hd| ->]; [|done]. unfold is_digit in Hd.
  apply andb_true_iff in Hd as [H1%Nat.leb_le H2%Nat.leb_le].
  rewrite <-(ascii_nat_embedding c).
  assert (Hc : (nat_of_ascii c = 48 ∨ nat_of_ascii c = 49 ∨ nat_of_ascii c = 50
          ∨ nat_of_ascii c = 51 ∨ nat_of_ascii c = 52 ∨ nat_of_ascii c = 53
          ∨ nat_of_ascii c = 54 ∨ nat_of_ascii c = 55 ∨ nat_of_ascii c = 56
          ∨ nat_of_ascii c = 57)%nat) by lia.
  destruct Hc as [->|[->|[->|[->|[->|[->|[->|[->|[->| ->]]]]]]]]]; done.
Qed.

(** Two strings that agree up to their first underscores agree before
    them. *)
Lemma split_at_separator (sep : ascii) d d' x y :
  sep ∉ d → sep ∉ d' → d ++ sep :: x = d' ++ sep :: y → d = d' ∧ x = y.
Proof.
  revert d'. induction d as [|c d IH]; intros d' Hd Hd' Heq.
  - destruct d' as [|c' d']; simpl in Heq.
    + by injection Heq as ->.
    + injection Heq as <- _. exfalso. apply Hd'. by left.
  - destruct d' as [|c' d']; simpl in Heq.
    + injection Heq as -> _. exfalso. apply Hd. by left.
    + injection Heq as -> Heq. destruct (IH d') as [-> ->]; [| |done|done].
      * intros Hin. apply Hd. by right.
      * intros Hin. apply Hd'. by right.
Qed.

(** A name that starts with a dot is not a number. *)
Lemma py_int_hidden n : ishidden n = true → py_int n = None.
Proof.
  destruct n as [|c n]; [done|]. simpl. intros Hc%Ascii.eqb_eq. subst c.
  unfold py_int. change (chars (String "." n)) with ("."%char :: chars n).
  destruct (strip_keeps_first "." (chars n)) as [s' ->]; done.
Qed.

End GlobFacts.

(** ** Identifier generation *)

Module StoreFacts.
Import Py Glob Store Vocabulary PyFacts GlobFacts.

Ltac unfold_M :=
  unfold mbind, M_bind, bind, mret, M_ret, ret, gets, modify, raise in *.

Lemma bind_Ok {A B} (m : M A) (k : A → M B) st a st' :
  m st = Ok (a, st') → (m ≫= k) st = k a st'.
Proof. intros H. unfold_M. by rewrite H. Qed.

(** *** Run IDs *)

Lemma new_run_id_spec e st :
  new_run_id e st
  = Ok (py_str (Z.max (wall_micros e) (_last_run_id st + 1)),
        set_last_run_id (Z.max (wall_micros e) (_last_run_id st + 1)) st).
Proof. reflexivity. Qed.

Lemma lamport_increasing last walls :
  StronglySorted Z.lt (lamport last walls)
  ∧ Forall (λ n, last < n) (lamport last walls).
Proof.
  revert last. induction walls as [|w walls IH]; intros last; simpl.
  - split; constructor.
  - destruct (IH (Z.max w (last + 1))) as [Hsorted Hall].
    split; constructor; try done; [lia|].
    eapply Forall_impl; [done|]. simpl. lia.
Qed.

Lemma new_run_ids_spec es st :
  ∃ st', new_run_ids es st
         = Ok (py_str <$> lamport (_last_run_id st) (wall_micros <$> es), st').
Proof.
  revert st. induction es as [|e es IH]; intros st; simpl.
  - by eexists.
  - rewrite (bind_Ok _ _ _ _ _ (new_run_id_spec e st)).
    destruct (IH (set_last_run_id (Z.max (wall_micros e) (_last_run_id st + 1)) st))
      as [st' Hst'].
    rewrite (bind_Ok _ _ _ _ _ Hst'). by eexists.
Qed.

Lemma py_str_NoDup (ns : list Z) : NoDup ns → NoDup (py_str <$> ns).
Proof. apply NoDup_fmap_2. intros n m. apply py_str_inj. Qed.

Lemma StronglySorted_lt_NoDup (ns : list Z) : StronglySorted Z.lt ns → NoDup ns.
Proof.
  induction 1 as [|n ns _ IH Hall]; constructor; [|done].
  intros Hin. rewrite Forall_forall in Hall. specialize (Hall n Hin). lia.
Qed.

Lemma py_int_fmap_py_str (ns : list Z) : py_int <$> (py_str <$> ns) = Some <$> ns.
Proof.
  induction ns as [|n ns IH]; [done|].
  rewrite !fmap_cons, py_int_py_str. by f_equal.
Qed.

(** C2.  Whatever the readings of the wall clock, the run IDs that a
    sequence of calls of [new_run_id] returns are the decimal strings of the
    logical clock max(currentWallClockMicros, lastIssued + 1); their values
    are strictly increasing, above the last ID issued before, and no ID is
    returned twice. *)
Theorem run_ids_follow_logical_clock (es : list env) (st : state) :
  ∃ ns st',
    new_run_ids es st = Ok (py_str <$> ns, st')
    ∧ ns = lamport (_last_run_id st) (wall_micros <$> es)
    ∧ py_int <$> (py_str <$> ns) = Some <$> ns
    ∧ StronglySorted Z.lt ns
    ∧ Forall (λ n, _last_run_id st < n) ns
    ∧ NoDup (py_str <$> ns).
Proof.
  destruct (new_run_ids_spec es st) as [st' Hrun].
  destruct (lamport_increasing (_last_run_id st) (wall_micros <$> es))
    as [Hsorted Hall].
  eexists _, st'. split; [exact Hrun|]. split; [done|].
  split; [apply py_int_fmap_py_str|]. split; [done|]. split; [done|].
  by apply py_str_NoDup, StronglySorted_lt_NoDup.
Qed.

(** *** Task IDs *)

Lemma foldl_scan_step_ge a l : a <= foldl scan_step a l.
Proof.
  revert a. induction l as [|p l IH]; intros a; simpl; [lia|].
  etrans; [|apply IH]. unfold scan_step. destruct (py_int _); lia.
Qed.

Lemma foldl_scan_step_omap a l :
  foldl scan_step a l = foldl Z.max a (omap (λ p, py_int (third_from_end p)) l).
Proof.
  revert a. induction l as [|p l IH]; intros a; simpl; [done|].
  unfold scan_step at 2. destruct (py_int (third_from_end p)); simpl; apply IH.
Qed.

Lemma scan_nonneg st flow run : 0 <= _scan_max_task_id st flow run.
Proof.
  unfold _scan_max_task_id. destruct (datastore_root st); [|done].
  apply foldl_scan_step_ge.
Qed.

Lemma scan_is_max_of_numeric_dirs st flow run :
  _scan_max_task_id st flow run = foldl Z.max 0 (numeric_task_dirs st flow run).
Proof.
  unfold _scan_max_task_id, numeric_task_dirs.
  destruct (datastore_root st); [|done]. apply foldl_scan_step_omap.
Qed.

(** What one call of [_next_task_id] returns and stores. *)
Lemma next_task_id_spec flow run st :
  let key := counter_key flow run in
  let seed := default (_scan_max_task_id st flow run) (_task_counters st !! key) in
  _next_task_id flow run st
  = Ok (py_str (seed + 1),
        set_task_counters (<[key := seed + 1]> (_task_counters st)) st).
Proof.
  intros key seed. unfold _next_task_id. fold key. subst seed.
  destruct (_task_counters st !! key) as [c|] eqn:Hc; simpl.
  - by rewrite Hc.
  - by rewrite lookup_insert_eq, insert_insert_eq.
Qed.

(** The first request for a (flow, run) pair in the life of the process
    returns the seed of the scan plus one. *)
Lemma next_task_id_first_request flow run st :
  _task_counters st !! counter_key flow run = None →
  ∃ st', _next_task_id flow run st
         = Ok (py_str (_scan_max_task_id st flow run + 1), st').
Proof. intros H. rewrite next_task_id_spec, H. by eexists. Qed.

(** A later request returns the previous ID plus one. *)
Lemma next_task_id_later_request flow run st c :
  _task_counters st !! counter_key flow run = Some c →
  ∃ st', _next_task_id flow run st = Ok (py_str (c + 1), st').
Proof. intros H. rewrite next_task_id_spec, H. by eexists. Qed.

Lemma next_task_ids_cons r reqs st :
  let st1 := on_disk (req_disk r) st in
  let key := counter_key (req_flow r) (req_run r) in
  let seed := default (_scan_max_task_id st1 (req_flow r) (req_run r))
                (_task_counters st !! key) in
  next_task_ids (r :: reqs) st
  = match next_task_ids reqs
            (set_task_counters (<[key := seed + 1]> (_task_counters st)) st1) with
    | Ok (rest, st') => Ok (py_str (seed + 1) :: rest, st')
    | Raise e => Raise e
    end.
Proof.
  intros st1 key seed. simpl. unfold_M.
  pose proof (next_task_id_spec (req_flow r) (req_run r) st1) as Hspec.
  simpl in Hspec. fold st1. rewrite Hspec. fold key.
  by destruct (next_task_ids reqs _) as [[rest st']|].
Qed.

Lemma next_task_ids_positive reqs st :
  counters_nonneg (_task_counters st) →
  ∃ ns st',
    next_task_ids reqs st = Ok (py_str <$> ns, st')
    ∧ Forall (λ n, 1 <= n) ns.
Proof.
  revert st. induction reqs as [|r reqs IH]; intros st Hinv.
  - exists [], st. by split.
  - rewrite next_task_ids_cons.
    set (st1 := on_disk (req_disk r) st).
    set (key := counter_key (req_flow r) (req_run r)).
    set (seed := default _ (_task_counters st !! key)).
    assert (Hseed : 0 <= seed).
    { subst seed. destruct (_task_counters st !! key) as [c|] eqn:Hc; simpl.
      - by apply (Hinv key).
      - apply scan_nonneg. }
    destruct (IH (set_task_counters (<[key := seed + 1]> (_task_counters st)) st1))
      as (ns & st' & -> & Hall).
    { intros k n. simpl. rewrite lookup_insert. case_decide.
      - intros [= <-]. lia.
      - apply Hinv. }
    exists ((seed + 1) :: ns), st'. split; [done|]. constructor; [lia | done].
Qed.

(** C9.  From the start of a process, every task ID that [_next_task_id]
    returns, for any requests on any disks, is the decimal string of an
    integer that is at least 1, so ["0"] is never issued.  The seed scan
    returns a value on every disk: it is the greatest of 0 and the names
    that [int()] accepts, names that it rejects being skipped, it is never
    negative, and it is 0 when the datastore root is unset. *)
Theorem task_ids_are_positive_decimals (reqs : list request) (st : state)
    (flow run : string) :
  (∃ ns st',
      next_task_ids reqs (restart st) = Ok (py_str <$> ns, st')
      ∧ py_int <$> (py_str <$> ns) = Some <$> ns
      ∧ Forall (λ n, 1 <= n) ns
      ∧ Forall (λ i, i ≠ "0") (py_str <$> ns))
  ∧ _scan_max_task_id st flow run = foldl Z.max 0 (numeric_task_dirs st flow run)
  ∧ 0 <= _scan_max_task_id st flow run
  ∧ _scan_max_task_id
      (State None (files st) (dirs st) (_task_counters st) (_last_run_id st))
      flow run = 0.
Proof.
  split; [|split; [apply scan_is_max_of_numeric_dirs | split; [apply scan_nonneg | done]]].
  destruct (next_task_ids_positive reqs (restart st)) as (ns & st' & Hrun & Hpos).
  { intros k n. simpl. by rewrite lookup_empty. }
  exists ns, st'. split; [done|]. split; [apply py_int_fmap_py_str|].
  split; [done|]. apply Forall_fmap. eapply Forall_impl; [done|].
  intros n Hn. simpl in *. change "0" with (py_str 0).
  intros Heq. apply py_str_inj in Heq. lia.
Qed.

(** X15.  In one process the IDs of a (flow, run) pair are consecutive integers,
    whatever the step names of the tasks and whatever is requested for other
    pairs in between. *)
Lemma task_ids_of_a_run_are_consecutive reqs st key :
  ∃ ids st' n0,
    next_task_ids reqs st = Ok (ids, st')
    ∧ ids_of_key key reqs ids
      = py_str <$> seqZ (n0 + 1) (Z.of_nat (List.length (ids_of_key key reqs ids)))
    ∧ (∀ c, _task_counters st !! key = Some c → n0 = c).
Proof.
  revert st. induction reqs as [|r reqs IH]; intros st.
  - exists [], st, (default 0 (_task_counters st !! key)).
    split; [done|]. split; [done|]. by intros c ->.
  - rewrite next_task_ids_cons.
    set (st1 := on_disk (req_disk r) st).
    set (kr := counter_key (req_flow r) (req_run r)).
    set (seed := default _ (_task_counters st !! kr)).
    destruct (IH (set_task_counters (<[kr := seed + 1]> (_task_counters st)) st1))
      as (ids & st' & n0 & -> & Hids & Hn0).
    simpl in Hn0. fold kr.
    destruct (String.eqb_spec kr key) as [Heq|Hne].
    + exists (py_str (seed + 1) :: ids), st', seed. split; [done|].
      simpl. fold kr. rewrite (proj2 (String.eqb_eq kr key) Heq).
      assert (Hn0' : n0 = seed + 1).
      { apply Hn0. rewrite Heq. apply lookup_insert_eq. }
      rewrite Hn0' in Hids. split.
      * simpl. rewrite Nat2Z.inj_succ, seqZ_cons by lia. rewrite fmap_cons.
        f_equal. rewrite Z.pred_succ. exact Hids.
      * intros c Hc. subst seed. rewrite Heq, Hc. done.
    + exists (py_str (seed + 1) :: ids), st', n0. split; [done|].
      simpl. fold kr. rewrite (proj2 (String.eqb_neq kr key) Hne).
      split; [done|]. intros c Hc. apply Hn0.
      by rewrite lookup_insert_ne.
Qed.

(** *** The seed scan *)

Lemma elem_of_iglob st pat p :
  p ∈ iglob st pat ↔ path_match pat p = true ∧ is_Some (files st !! p).
Proof.
  unfold iglob. rewrite list_elem_of_filter, list_elem_of_fmap. split.
  - intros (Hm & [p' c] & -> & Hin%elem_of_map_to_list). split; [done|]. by exists c.
  - intros (Hm & c & Hc). split; [done|]. exists (p, c). split; [done|].
    by apply elem_of_map_to_list.
Qed.

Lemma third_from_end_task root flow run step task :
  third_from_end (root ++ [flow; run; step; task; "_meta"; "_self.json"]) = task.
Proof. unfold third_from_end. by rewrite rev_app_distr. Qed.

Lemma foldl_scan_step_bounds a l :
  (∀ p n, p ∈ l → py_int (third_from_end p) = Some n → n <= foldl scan_step a l)
  ∧ (foldl scan_step a l = a
     ∨ ∃ p, p ∈ l ∧ py_int (third_from_end p) = Some (foldl scan_step a l)).
Proof.
  revert a. induction l as [|q l IH]; intros a; simpl.
  - split; [by intros p n ?%elem_of_nil | by left].
  - destruct (IH (scan_step a q)) as [Hub Hmax].
    pose proof (foldl_scan_step_ge (scan_step a q) l) as Hge. split.
    + intros p n [->|Hin]%elem_of_cons Hn; [|by eapply Hub].
      assert (n <= scan_step a q) by (unfold scan_step; rewrite Hn; lia). lia.
    + destruct Hmax as [Heq|(p & Hin & Hp)].
      * rewrite Heq. unfold scan_step.
        destruct (py_int (third_from_end q)) as [n|] eqn:Hq; [|by left].
        destruct (Z.max_spec a n) as [[_ ->]|[_ ->]]; [|by left].
        right. exists q. split; [by left | done].
      * right. exists p. split; [by right | done].
Qed.

(** When no component of the root, the flow name or the run ID has a magic
    character, the seed is the greatest ID among the task records of the run
    whose step directory is not hidden, or 0. *)
Lemma scan_is_max_of_task_records st root flow run :
  datastore_root st = Some root →
  literal (root ++ [flow; run]) →
  (∀ step task n,
      is_Some (files st !! self_file root [flow; run; step; task]) →
      ishidden step = false →
      py_int task = Some n →
      n <= _scan_max_task_id st flow run)
  ∧ (_scan_max_task_id st flow run = 0
     ∨ ∃ step task,
         is_Some (files st !! self_file root [flow; run; step; task])
         ∧ py_int task = Some (_scan_max_task_id st flow run)).
Proof.
  intros Hroot Hlit. unfold _scan_max_task_id, self_file. rewrite Hroot.
  destruct (foldl_scan_step_bounds 0
    (iglob st (root ++ [flow; run; "*"; "*"; "_meta"; "_self.json"])))
    as [Hub Hmax].
  split.
  - intros step task n Hfile Hstep Htask.
    apply (Hub (root ++ [flow; run; step; task; "_meta"; "_self.json"])).
    + apply elem_of_iglob. split; [|done].
      apply path_match_task_records; [done|]. exists step, task.
      split; [done|]. split; [done|].
      destruct (ishidden task) eqn:Hh; [|done].
      apply py_int_hidden in Hh. congruence.
    + by rewrite third_from_end_task.
  - destruct Hmax as [?|(p & Hin & Hp)]; [by left|]. right.
    apply elem_of_iglob in Hin as [Hm Hfile].
    apply path_match_task_records in Hm as (step & task & -> & _ & _); [|done].
    rewrite third_from_end_task in Hp. by exists step, task.
Qed.

(** X16.  With plain names the first ID after a restart is new: it is above every
    numeric task ID that has a record in the run, under a step directory
    that is not hidden. *)
Lemma first_id_after_restart_is_fresh st root flow run :
  datastore_root st = Some root →
  literal (root ++ [flow; run]) →
  ∃ n st',
    _next_task_id flow run (restart st) = Ok (py_str n, st')
    ∧ n = _scan_max_task_id st flow run + 1
    ∧ ∀ step task m,
        is_Some (files st !! self_file root [flow; run; step; task]) →
        ishidden step = false →
        py_int task = Some m →
        m < n.
Proof.
  intros Hroot Hlit.
  destruct (next_task_id_first_request flow run (restart st)) as [st' Hnext].
  { apply lookup_empty. }
  exists (_scan_max_task_id st flow run + 1), st'. split; [done|].
  split; [done|]. intros step task m Hfile Hstep Hm.
  destruct (scan_is_max_of_task_records st root flow run Hroot Hlit) as [Hub _].
  specialize (Hub step task m Hfile Hstep Hm). lia.
Qed.


(** With a plain root the same two calls return ["1"] and then ["2"]. *)
Example restart_continues_under_plain_root :
  let root := ["work"; "exp1"; ".metaflow"] in
  let e := Env 1700000000 (Some "alice") in
  let b := Body None None None None in
  let st0 := State (Some root) ∅ ∅ ∅ 0 in
  let first := create_task e "F" "7" "start" b st0 in
  let st1 := restart (state_after st0 first) in
  let second := create_task e "F" "7" "start" b st1 in
  task_id <$> value first = Some (Some "1")
  ∧ _scan_max_task_id st1 "F" "7" = 1
  ∧ task_id <$> value second = Some (Some "2").
Proof. repeat split; vm_compute; reflexivity. Qed.

(** ** Creation of entities *)

Lemma get_metadir_spec key st root :
  datastore_root st = Some root →
  _get_metadir key st = Ok (root ++ key ++ ["_meta"], st).
Proof. intros H. unfold _get_metadir. unfold_M. by rewrite H. Qed.

Lemma get_object_self_unset key st :
  datastore_root st = None → get_object_self key st = Raise StoreNotSetUp.
Proof. intros H. unfold get_object_self, _get_metadir. unfold_M. by rewrite H. Qed.

Lemma get_object_self_spec key st root :
  datastore_root st = Some root →
  get_object_self key st
  = Ok (match files st !! self_file root key with
        | Some (Self r) => Some r
        | _ => None
        end, st).
Proof.
  intros H. unfold get_object_self.
  rewrite (bind_Ok _ _ _ _ _ (get_metadir_spec key st root H)).
  unfold _read_json_file, self_file. unfold_M.
  rewrite <-!app_assoc. simpl.
  by destruct (files st !! _) as [[r|a]|].
Qed.

(** The two lines that every creation ends with. *)
Lemma save_self_spec {B} key r (k : M B) st root :
  datastore_root st = Some root →
  (meta_dir ← _create_and_get_metadir key;
   _save_meta meta_dir [("_self", Self r)] ;; k) st
  = k (with_self root key r st).
Proof.
  intros H. unfold _create_and_get_metadir.
  unfold_M. rewrite (get_metadir_spec key st root H).
  unfold makedirs, _save_meta, write_file, with_self, self_file. unfold_M.
  simpl. rewrite <-!app_assoc. done.
Qed.

Lemma self_file_inj root k1 k2 : self_file root k1 = self_file root k2 → k1 = k2.
Proof.
  unfold self_file. intros H%app_inv_head. by apply app_inv_tail in H.
Qed.

Lemma with_self_root root key r st :
  datastore_root (with_self root key r st) = datastore_root st.
Proof. done. Qed.

Lemma with_self_lookup root key r st :
  files (with_self root key r st) !! self_file root key = Some (Self r).
Proof. apply lookup_insert_eq. Qed.


Lemma get_or_create_flow_spec e flow b st root :
  datastore_root st = Some root →
  get_or_create_flow e flow b st
  = match files st !! self_file root [flow] with
    | Some (Self r) => Ok ((r, false), st)
    | _ => Ok ((_build_flow_record e flow b, true),
               with_self root [flow] (_build_flow_record e flow b) st)
    end.
Proof.
  intros H. unfold get_or_create_flow.
  rewrite (bind_Ok _ _ _ _ _ (get_object_self_spec [flow] st root H)).
  destruct (files st !! _) as [[r|a]|]; [done|..];
    by rewrite (save_self_spec _ _ _ _ root).
Qed.


(** C3.  When a flow has no record, the first call of [get_or_create_flow]
    builds its record and returns it with [True]; a second call with the
    same name and body returns the same record with [False] and leaves the
    state, and so the stored record, as the first call left it, whatever
    the clock and the user name of the second call. *)
Theorem get_or_create_flow_twice (e e' : env) (flow : string) (b : body)
    (st : state) :
  get_flow flow st = Ok (None, st) →
  ∃ r st1,
    get_or_create_flow e flow b st = Ok ((r, true), st1)
    ∧ r = _build_flow_record e flow b
    ∧ get_or_create_flow e' flow b st1 = Ok ((r, false), st1)
    ∧ get_flow flow st1 = Ok (Some r, st1).
Proof.
  intros Habsent. unfold get_flow in *.
  destruct (datastore_root st) as [root|] eqn:Hroot;
    [|by rewrite get_object_self_unset in Habsent].
  rewrite (get_object_self_spec _ _ root Hroot) in Habsent.
  exists (_build_flow_record e flow b),
    (with_self root [flow] (_build_flow_record e flow b) st).
  split.
  - rewrite (get_or_create_flow_spec _ _ _ _ root Hroot).
    by destruct (files st !! _) as [[r|a]|].
  - split; [done|].
    rewrite (get_or_create_flow_spec _ _ _ _ root), (get_object_self_spec _ _ root),
      with_self_lookup by done.
    done.
Qed.

(** A flow that has a record is returned as it is, with [False]. *)
Lemma get_or_create_flow_existing e flow b st r :
  get_flow flow st = Ok (Some r, st) →
  get_or_create_flow e flow b st = Ok ((r, false), st).
Proof.
  intros Hflow. unfold get_flow in *.
  destruct (datastore_root st) as [root|] eqn:Hroot;
    [|by rewrite get_object_self_unset in Hflow].
  rewrite (get_object_self_spec _ _ root Hroot) in Hflow.
  rewrite (get_or_create_flow_spec _ _ _ _ root Hroot).
  destruct (files st !! _) as [[r0|a]|]; congruence.
Qed.

Lemma get_or_create_flow_twice_witness :
  let st0 := State (Some ["home"; ".metaflow"]) ∅ ∅ ∅ 0 in
  let e := Env 1700000000 (Some "alice") in
  let b := Body None (Some ["t1"]) None None in
  get_flow "MyFlow" st0 = Ok (None, st0)
  ∧ ∃ r st1,
      get_or_create_flow e "MyFlow" b st0 = Ok ((r, true), st1)
      ∧ r = _build_flow_record e "MyFlow" b
      ∧ get_or_create_flow e "MyFlow" b st1 = Ok ((r, false), st1)
      ∧ get_flow "MyFlow" st1 = Ok (Some r, st1).
Proof.
  intros st0 e b.
  assert (H : get_flow "MyFlow" st0 = Ok (None, st0)) by reflexivity.
  split; [exact H|]. exact (get_or_create_flow_twice e e "MyFlow" b st0 H).
Defined.


Lemma create_run_spec e flow b st root :
  datastore_root st = Some root →
  let st_a :=
    match files st !! self_file root [flow] with
    | Some (Self _) => st
    | _ => with_self root [flow] (_build_flow_record e flow b) st
    end in
  let n := Z.max (wall_micros e) (_last_run_id st + 1) in
  let record := _build_run_record e flow (py_str n) b in
  create_run e flow b st
  = Ok (record, with_self root [flow; py_str n] record (set_last_run_id n st_a)).
Proof.
  intros Hroot st_a n record. unfold create_run.
  assert (Hflow : ∃ rc, get_or_create_flow e flow b st = Ok (rc, st_a)).
  { rewrite (get_or_create_flow_spec _ _ _ _ root Hroot). subst st_a.
    destruct (files st !! _) as [[r|a]|]; by eexists. }
  destruct Hflow as [rc Hflow]. rewrite (bind_Ok _ _ _ _ _ Hflow).
  rewrite (bind_Ok _ _ _ _ _ (new_run_id_spec e st_a)).
  assert (Hlast : _last_run_id st_a = _last_run_id st).
  { subst st_a. by destruct (files st !! _) as [[r|a]|]. }
  rewrite Hlast. fold n. fold record.
  rewrite (save_self_spec _ _ _ _ root); [done|].
  subst st_a. by destruct (files st !! _) as [[r|a]|].
Qed.





(** ** Artifacts *)


Lemma py_str_plain n :
  has_magic (py_str n) = false
  ∧ ("_"%char ∉ chars (py_str n))
  ∧ ∀ s, ishidden (py_str n +:+ s) = false.
Proof.
  destruct (py_str_chars n) as (c & s & Hcs & Hall).
  assert (Hplain : Forall (λ c, magic_char c = false ∧ c ≠ "_"%char ∧ c ≠ "."%char)
                     (c :: s)).
  { eapply Forall_impl; [done|]. apply digit_or_minus_plain. }
  split; [|split].
  - unfold has_magic. rewrite Hcs.
    destruct (existsb magic_char (c :: s)) eqn:Hex; [|done].
    apply existsb_exists in Hex as (x & Hin%list_elem_of_In & Hx).
    rewrite Forall_forall in Hplain. destruct (Hplain x Hin) as [Hm _]. congruence.
  - rewrite Hcs. intros Hin. rewrite Forall_forall in Hplain.
    by destruct (Hplain _ Hin) as (_ & ? & _).
  - intros s'. destruct (py_str n) as [|c' s0] eqn:Hstr; [done|].
    simpl in Hcs. injection Hcs as -> _. simpl.
    apply Forall_inv in Hplain as (_ & _ & Hdot).
    by apply Ascii.eqb_neq.
Qed.







Lemma ancestors_self base p c : base ++ p ++ [c] ∈ ancestors base (p ++ [c]).
Proof.
  revert base. induction p as [|d p IH]; intros base; simpl.
  - by left.
  - right. specialize (IH (base ++ [d])). by rewrite <-app_assoc in IH.
Qed.







(** C5.  With a project directory that has a bracket in its name
    [get_artifacts] finds no artifact.  Two artifacts are registered for a
    task, one under attempt 0 and one under attempt 1, and their files are
    on disk; the glob pattern, in which the directory is not escaped, does
    not match them, and the call returns the empty list with the filter
    [attempt=1] and without a filter. *)
Theorem artifacts_not_found_under_bracket_root :
  let root := ["work"; "exp[1]"; ".metaflow"] in
  let a0 := Artifact "x" (Some 0) [("sha", "sha0")] in
  let a1 := Artifact "x" (Some 1) [("sha", "sha1")] in
  let st0 := State (Some root) ∅ ∅ ∅ 0 in
  let st1 := state_after st0 (register_artifacts "F" "7" "start" "1" [a0; a1] st0) in
  let meta_dir := root ++ ["F"; "7"; "start"; "1"; "_meta"] in
  files st1 !! (meta_dir ++ ["0_artifact_x.json"]) = Some (Art a0)
  ∧ files st1 !! (meta_dir ++ ["1_artifact_x.json"]) = Some (Art a1)
  ∧ value (get_artifacts "F" "7" "start" "1" (Some 1) st1) = Some []
  ∧ value (get_artifacts "F" "7" "start" "1" None st1) = Some [].
Proof. repeat split; vm_compute; reflexivity. Qed.

(** The same holds for a flow whose name has a bracket, under a plain
    root. *)
Example artifacts_not_found_under_bracket_flow :
  let root := ["work"; "exp1"; ".metaflow"] in
  let a0 := Artifact "x" (Some 0) [("sha", "sha0")] in
  let a1 := Artifact "x" (Some 1) [("sha", "sha1")] in
  let st0 := State (Some root) ∅ ∅ ∅ 0 in
  let st1 := state_after st0 (register_artifacts "F[1]" "7" "start" "1" [a0; a1] st0) in
  value (get_artifacts "F[1]" "7" "start" "1" (Some 1) st1) = Some []
  ∧ value (get_artifacts "F[1]" "7" "start" "1" None st1) = Some [].
Proof. repeat split; vm_compute; reflexivity. Qed.

(** With plain names the filter returns the artifact of attempt 1 alone and
    the call without a filter returns both. *)
Example artifacts_found_under_plain_root :
  let root := ["work"; "exp1"; ".metaflow"] in
  let a0 := Artifact "x" (Some 0) [("sha", "sha0")] in
  let a1 := Artifact "x" (Some 1) [("sha", "sha1")] in
  let st0 := State (Some root) ∅ ∅ ∅ 0 in
  let st1 := state_after st0 (register_artifacts "F" "7" "start" "1" [a0; a1] st0) in
  value (get_artifacts "F" "7" "start" "1" (Some 1) st1) = Some [Art a1]
  ∧ value (get_artifacts "F" "7" "start" "1" (Some 0) st1) = Some [Art a0]
  ∧ value (get_artifacts "F" "7" "start" "1" None st1) = Some [Art a1; Art a0].
Proof. repeat split; vm_compute; reflexivity. Qed.

(** ** Tag mutation *)




(** The two cases of the tests: adding ["new"] to a run tagged ["existing"]
    gives both tags, and removing ["existing"] gives a set without it. *)
Example mutate_tags_add_and_remove :
  let root := ["home"; ".metaflow"] in
  let r := Entity "F" (Some "7") None None "alice" ["existing"] [] 1700000000000 in
  let st0 := State (Some root) {[ self_file root ["F"; "7"] := Self r ]} ∅ ∅ 0 in
  elements <$> value (mutate_tags "F" "7" ["new"] [] st0) = Some ["existing"; "new"]
  ∧ elements <$> value (mutate_tags "F" "7" [] ["existing"] st0) = Some [].
Proof. split; vm_compute; reflexivity. Qed.

End StoreFacts.

(** ** Heartbeats *)

Module ServerFacts.
Import Server.

(** C10.  Whatever the path parameters and whatever the store holds, both
    heartbeat routes answer with status 200 and the body
    [{"wait_time_in_seconds": 10}]; they set [last_heartbeat_at] to the
    current time and leave the store, its disk and its counters as they
    were. *)
Theorem heartbeats_touch_only_the_timestamp (now : Q)
    (flow run step task : string) (st other : state) :
  let ok := Response 200 [("wait_time_in_seconds", 10)] in
  run_heartbeat now flow run st = (ok, State now (store st))
  ∧ task_heartbeat now flow run step task st = (ok, State now (store st))
  ∧ fst (run_heartbeat now flow run other) = ok
  ∧ fst (task_heartbeat now flow run step task other) = ok.
Proof. repeat split. Qed.

End ServerFacts.

(** ** The supervisor *)

Module DaemonFacts.
Import Py Daemon Vocabulary.

(** C7.  When the state file is missing, when it is malformed (it is not
    JSON, or [from_dict] raises on it), or when it names a process that
    [os.kill] does not find, [status] returns [None] and lets no exception
    escape.  In the last case both files of the state directory are removed
    before it returns; in the other cases nothing is touched.  After the
    call no discovery record can be read. *)
Theorem status_absent (float_of_str : string → option Q) (repr : json → string)
    (o : os) :
  state_file o = None
  ∨ state_file o = Some NotJson
  ∨ (∃ j, state_file o = Some (Json j) ∧ from_dict float_of_str repr j = None)
  ∨ (∃ s, _read_state float_of_str repr o = Some s
          ∧ kill0 o (pid s) = ProcessLookupError) →
  ∃ o',
    status float_of_str repr o = (Returned None, o')
    ∧ _read_state float_of_str repr o' = None
    ∧ (_read_state float_of_str repr o = None → o' = o)
    ∧ (_read_state float_of_str repr o ≠ None →
       state_file o' = None ∧ pid_file o' = None).
Proof.
  intros [Hmissing|[Hbad|[(j & Hj & Hdict)|(s & Hs & Hdead)]]].
  - assert (Hread : _read_state float_of_str repr o = None).
    { unfold _read_state. by rewrite Hmissing. }
    exists o. unfold status. rewrite Hread. done.
  - assert (Hread : _read_state float_of_str repr o = None).
    { unfold _read_state. by rewrite Hbad. }
    exists o. unfold status. rewrite Hread. done.
  - assert (Hread : _read_state float_of_str repr o = None).
    { unfold _read_state. by rewrite Hj. }
    exists o. unfold status. rewrite Hread. done.
  - exists (_clear_state o). unfold status, _is_alive. rewrite Hs, Hdead.
    split; [done|]. split; [done|]. split; [congruence | done].
Qed.

Lemma status_absent_witness :
  let f : string → option Q := λ _, None in
  let rp : json → string := λ _, "" in
  let s := MkDaemonState 4194304 1234 "/tmp" 0 in
  let o := _write_state s (Os None None (λ _, ProcessLookupError)) in
  (state_file o = None
   ∨ state_file o = Some NotJson
   ∨ (∃ j, state_file o = Some (Json j) ∧ from_dict f rp j = None)
   ∨ (∃ s, _read_state f rp o = Some s ∧ kill0 o (pid s) = ProcessLookupError))
  ∧ ∃ o',
      status f rp o = (Returned None, o')
      ∧ _read_state f rp o' = None
      ∧ (_read_state f rp o = None → o' = o)
      ∧ (_read_state f rp o ≠ None → state_file o' = None ∧ pid_file o' = None).
Proof.
  intros f rp s o.
  assert (H : state_file o = None
              ∨ state_file o = Some NotJson
              ∨ (∃ j, state_file o = Some (Json j) ∧ from_dict f rp j = None)
              ∨ (∃ s, _read_state f rp o = Some s
                      ∧ kill0 o (pid s) = ProcessLookupError)).
  { right. right. right. exists s. split; reflexivity. }
  split; [exact H|]. exact (status_absent f rp o H).
Defined.

(** A record that [_write_state] wrote is read back as it was. *)
Lemma read_state_write_state float_of_str repr s o :
  _read_state float_of_str repr (_write_state s o) =
  Some (MkDaemonState (pid s) (port s) (metaflow_root s) (started_at s)).
Proof.
  unfold _read_state, _write_state, from_dict. simpl.
  assert (Hint : ∀ z, int_of_float (inject_Z z) = z).
  { intros z. unfold int_of_float. destruct (Qle_bool 0 (inject_Z z)).
    - apply Qfloor_Z.
    - apply Qceiling_Z. }
  by rewrite !Hint.
Qed.

(** A live daemon is reported, and its record is kept. *)
Lemma status_running float_of_str repr o s :
  _read_state float_of_str repr o = Some s →
  kill0 o (pid s) = Delivered →
  status float_of_str repr o = (Returned (Some s), o).
Proof. intros Hs Hlive. unfold status, _is_alive. by rewrite Hs, Hlive. Qed.

(** *** The idle monitor *)

Lemma monitor_wake_quiet timeout now m :
  (now - last_heartbeat_at m <= inject_Z timeout)%Q →
  monitor_wake timeout now m = m.
Proof.
  intros H%Qle_bool_iff. unfold monitor_wake. rewrite H. simpl.
  by destruct (monitoring m).
Qed.

Lemma monitor_wake_idle timeout now m :
  monitoring m = true →
  (inject_Z timeout < now - last_heartbeat_at m)%Q →
  monitor_wake timeout now m = Monitor (last_heartbeat_at m) true false.
Proof.
  intros Hmon Hlt. unfold monitor_wake. rewrite Hmon.
  destruct (Qle_bool _ _) eqn:Hle; [|done].
  apply Qle_bool_iff in Hle. by apply Qlt_not_le in Hlt.
Qed.

Lemma step_monitor_ok timeout m ev : monitor_ok m → monitor_ok (step timeout m ev).
Proof.
  unfold monitor_ok. intros Hm. destruct ev as [now|now]; simpl; [done|].
  unfold monitor_wake. destruct (monitoring m) eqn:Hmon; [|by rewrite Hmon].
  destruct (negb (Qle_bool _ _)); [done | by rewrite Hmon].
Qed.

Lemma run_events_monitor_ok timeout m evs :
  monitor_ok m → monitor_ok (run_events timeout m evs).
Proof.
  revert m. induction evs as [|ev evs IH]; intros m Hm; [done|].
  simpl. by apply IH, step_monitor_ok.
Qed.

Lemma step_keeps_exit timeout m ev :
  should_exit m = true → should_exit (step timeout m ev) = true.
Proof.
  intros Hm. destruct ev as [now|now]; simpl; [done|].
  unfold monitor_wake. destruct (monitoring m); [|done].
  by destruct (negb (Qle_bool _ _)).
Qed.

Lemma run_events_snoc timeout m evs ev :
  run_events timeout m (evs ++ [ev]) = step timeout (run_events timeout m evs) ev.
Proof. unfold run_events. by rewrite foldl_app. Qed.

(** C8.  Started with the flag down, the monitor sets [should_exit] exactly
    when one of its wake-ups finds that more than [idle_timeout] seconds
    have passed since the last heartbeat.  A wake-up that finds at most
    [idle_timeout] seconds of silence changes nothing; a wake-up of the
    running loop that finds more sets the flag; and after a heartbeat at
    [h] no wake-up up to [h + idle_timeout] sets it, while a wake-up after
    that does. *)
Theorem idle_monitor_shuts_down_after_timeout (timeout : Z) (m : monitor)
    (evs : list event) :
  monitoring m = true →
  should_exit m = false →
  (should_exit (run_events timeout m evs) = true
   ↔ ∃ pre now post,
       evs = pre ++ Wake now :: post
       ∧ (inject_Z timeout
          < now - last_heartbeat_at (run_events timeout m pre))%Q)
  ∧ (∀ now, (now - last_heartbeat_at m <= inject_Z timeout)%Q →
            monitor_wake timeout now m = m)
  ∧ (∀ now, (inject_Z timeout < now - last_heartbeat_at m)%Q →
            should_exit (monitor_wake timeout now m) = true)
  ∧ (∀ h now, (now <= h + inject_Z timeout)%Q →
              monitor_wake timeout now (heartbeat h m) = heartbeat h m)
  ∧ (∀ h now, (h + inject_Z timeout < now)%Q →
              should_exit (monitor_wake timeout now (heartbeat h m)) = true).
Proof.
  intros Hmon Hexit.
  assert (Hok : monitor_ok m) by (unfold monitor_ok; by rewrite Hmon, Hexit).
  split; [|split; [|split; [|split]]].
  - induction evs as [|ev evs IH] using rev_ind.
    { simpl. rewrite Hexit. split; [done|].
      intros (pre & now & post & Heq & _). by destruct pre. }
    rewrite run_events_snoc.
    pose proof (run_events_monitor_ok timeout m evs Hok) as Hok'.
    split.
    + intros Hfinal.
      destruct (should_exit (run_events timeout m evs)) eqn:Hbefore.
      * destruct (proj1 IH eq_refl) as (pre & now & post & -> & Hlt).
        exists pre, now, (post ++ [ev]). by rewrite <-app_assoc.
      * destruct ev as [now|now]; simpl in Hfinal; [congruence|].
        exists evs, now, []. split; [done|].
        unfold monitor_wake in Hfinal. unfold monitor_ok in Hok'.
        rewrite Hok', Hbefore in Hfinal. simpl in Hfinal.
        destruct (Qle_bool _ _) eqn:Hle; simpl in Hfinal; [congruence|].
        apply Qnot_le_lt. intros Hle'%Qle_bool_iff. congruence.
    + intros (pre & now & post & Heq & Hlt).
      destruct post as [|ev' post _] using rev_ind.
      * apply app_inj_tail in Heq as [-> ->]. simpl.
        destruct (monitoring (run_events timeout m pre)) eqn:Hrun.
        -- by rewrite monitor_wake_idle.
        -- unfold monitor_wake. rewrite Hrun. unfold monitor_ok in Hok'.
           rewrite Hrun in Hok'.
           destruct (should_exit (run_events timeout m pre)); [done|].
           simpl in Hok'. discriminate.
      * rewrite app_comm_cons, app_assoc in Heq.
        apply app_inj_tail in Heq as [-> ->].
        apply step_keeps_exit, IH. by exists pre, now, post.
  - intros now. apply monitor_wake_quiet.
  - intros now Hlt. by rewrite monitor_wake_idle.
  - intros h now Hle. apply monitor_wake_quiet. simpl. lra.
  - intros h now Hlt. rewrite monitor_wake_idle; [done | done |]. simpl. lra.
Qed.

Lemma idle_monitor_shuts_down_after_timeout_witness :
  let m := Monitor 1000 false true in
  let evs := [Wake 1030; Heartbeat 1290; Wake 1320; Wake 1590; Wake 1620] in
  monitoring m = true
  ∧ should_exit m = false
  ∧ (should_exit (run_events 300 m evs) = true
     ↔ ∃ pre now post,
         evs = pre ++ Wake now :: post
         ∧ (inject_Z 300 < now - last_heartbeat_at (run_events 300 m pre))%Q).
Proof.
  intros m evs. split; [reflexivity|]. split; [reflexivity|].
  exact (proj1 (idle_monitor_shuts_down_after_timeout 300 m evs eq_refl eq_refl)).
Defined.

(** The run of the witness: the heartbeat at 1290 defers the shutdown, which
    the wake-up at 1620 triggers and the one at 1590 does not. *)
Example idle_monitor_run :
  let m := Monitor 1000 false true in
  should_exit (run_events 300 m [Wake 1030; Heartbeat 1290; Wake 1320; Wake 1590])
  = false
  ∧ should_exit
      (run_events 300 m [Wake 1030; Heartbeat 1290; Wake 1320; Wake 1590; Wake 1620])
    = true
  ∧ should_exit (run_events 300 m [Wake 1030; Wake 1301]) = true.
Proof. repeat split. Qed.

End DaemonFacts.

(** ** Set-up, metadata keys and record builders *)

Module SetupFacts.
Import Py Glob Store Setup Vocabulary PyFacts GlobFacts StoreFacts.

(** X1.  [setup] acts once: a second call, with the same or with another
    root, changes nothing.  A call either finds the flag set and returns the
    process as it is, or points the datastore root at
    [metaflow_root/.metaflow] and makes that directory; it never touches the
    files, the task counters or the run clock. *)
Theorem setup_acts_once (r1 r2 : list string) (p : process) :
  setup r2 (setup r1 p) = setup r1 p
  ∧ _initialized (setup r1 p) = true
  ∧ (setup r1 p = p
     ∨ (datastore_root (store_state (setup r1 p)) = Some (r1 ++ [".metaflow"])
        ∧ r1 ++ [".metaflow"] ∈ dirs (store_state (setup r1 p))))
  ∧ files (store_state (setup r1 p)) = files (store_state p)
  ∧ _task_counters (store_state (setup r1 p)) = _task_counters (store_state p)
  ∧ _last_run_id (store_state (setup r1 p)) = _last_run_id (store_state p).
Proof.
  unfold setup. destruct (_initialized p) eqn:Hinit.
  - rewrite Hinit. repeat split; by left.
  - simpl. repeat split. right. split; [done|].
    apply elem_of_union_l, elem_of_list_to_set.
    pose proof (ancestors_self [] r1 ".metaflow") as Hself.
    by simpl in Hself.
Qed.

Lemma metadata_key_number m m' n n' :
  metadata_key m n = metadata_key m' n' → n = n'.
Proof.
  unfold metadata_key. intros Heq. apply (f_equal chars) in Heq.
  rewrite !chars_app in Heq. apply (f_equal (@rev ascii)) in Heq.
  rewrite !rev_app_distr in Heq.
  change (rev (chars "_")) with ["_"%char] in Heq.
  rewrite <-!app_assoc in Heq. simpl in Heq.
  destruct (py_str_plain n) as (_ & Hsep & _).
  destruct (py_str_plain n') as (_ & Hsep' & _).
  apply split_at_separator in Heq as [Heq _].
  - apply py_str_inj, chars_inj. apply (f_equal (@rev ascii)) in Heq.
    by rewrite !rev_involutive in Heq.
  - intros Hin%list_elem_of_In%in_rev. by apply Hsep, list_elem_of_In.
  - intros Hin%list_elem_of_In%in_rev. by apply Hsep', list_elem_of_In.
Qed.

(** X2.  The keys of one call of [register_metadata] are pairwise distinct,
    whatever the field names: no entry of a call is written over another
    entry of the same call. *)
Theorem metadata_keys_distinct (e : env) (metadata : list metadata_entry) :
  NoDup (fst <$> meta_dict e metadata)
  ∧ List.length (meta_dict e metadata) = List.length metadata.
Proof.
  unfold meta_dict. split; [|apply length_imap].
  apply NoDup_alt. intros i j k.
  rewrite !list_lookup_fmap, !list_lookup_imap.
  destruct (metadata !! i) as [m|]; [|done].
  destruct (metadata !! j) as [m'|]; [|done].
  simpl. intros Hi Hj.
  assert (Hk : metadata_key m (py_round (time_time e * 1000) + Z.of_nat i)
               = metadata_key m' (py_round (time_time e * 1000) + Z.of_nat j))
    by congruence.
  apply metadata_key_number in Hk. lia.
Qed.

End SetupFacts.

(** ** Creating and fetching entities *)

Module StoreMoreFacts.
Import Py Glob Store Vocabulary PyFacts GlobFacts StoreFacts.

(** [get_or_create_flow] and [get_or_create_step] touch no other file than
    the record they make sure of. *)
Lemma ensured_files root key r st p :
  p ≠ self_file root key →
  files (match files st !! self_file root key with
         | Some (Self _) => st
         | _ => with_self root key r st
         end) !! p = files st !! p.
Proof.
  intros Hp. destruct (files st !! self_file root key) as [[?|?]|]; [done|..];
    by apply lookup_insert_ne.
Qed.

(** What [create_run] returns and what it leaves behind. *)
Lemma create_run_effect e flow b st root :
  datastore_root st = Some root →
  let n := Z.max (wall_micros e) (_last_run_id st + 1) in
  let r := _build_run_record e flow (py_str n) b in
  ∃ st1,
    create_run e flow b st = Ok (r, st1)
    ∧ datastore_root st1 = Some root
    ∧ _last_run_id st1 = n
    ∧ _task_counters st1 = _task_counters st
    ∧ files st1 !! self_file root [flow; py_str n] = Some (Self r)
    ∧ ∀ p, p ≠ self_file root [flow] → p ≠ self_file root [flow; py_str n] →
           files st1 !! p = files st !! p.
Proof.
  intros Hroot n r. rewrite (create_run_spec _ _ _ _ root Hroot).
  eexists. split; [done|].
  split. { cbn [datastore_root with_self set_last_run_id].
           by destruct (files st !! _) as [[?|?]|]. }
  split; [done|].
  split. { cbn [_task_counters with_self set_last_run_id].
           by destruct (files st !! _) as [[?|?]|]. }
  split; [apply with_self_lookup|].
  intros p Hp1 Hp2. cbn [files with_self set_last_run_id].
  rewrite lookup_insert_ne by done. by apply ensured_files.
Qed.


(** X3.  [create_run] returns the record of a run whose number is the
    decimal string of max(wall clock, last + 1) and stores that number as
    the last one issued; [get_run] with that number then returns the same
    record.  The call writes no file but the records of the flow and of the
    run, and it leaves the task counters alone. *)
Theorem create_run_then_get_run (e : env) (flow : string) (b : body)
    (st : state) (root : list string) :
  datastore_root st = Some root →
  ∃ r st1 n,
    create_run e flow b st = Ok (r, st1)
    ∧ n = Z.max (wall_micros e) (_last_run_id st + 1)
    ∧ r = _build_run_record e flow (py_str n) b
    ∧ _last_run_id st1 = n
    ∧ get_run flow (py_str n) st1 = Ok (Some r, st1)
    ∧ _task_counters st1 = _task_counters st
    ∧ ∀ p, p ≠ self_file root [flow] → p ≠ self_file root [flow; py_str n] →
           files st1 !! p = files st !! p.
Proof.
  intros Hroot.
  destruct (create_run_effect e flow b st root Hroot)
    as (st1 & Hrun & Hroot1 & Hlast & Hcnt & Hfile & Hframe).
  eexists _, st1, (Z.max (wall_micros e) (_last_run_id st + 1)).
  split; [exact Hrun|]. split; [done|]. split; [done|].
  split; [done|]. split; [|by split].
  unfold get_run. by rewrite (get_object_self_spec _ _ root Hroot1), Hfile.
Qed.

Lemma create_run_then_get_run_witness :
  let st0 := State (Some ["home"; ".metaflow"]) ∅ ∅ ∅ 0 in
  let e := Env 1700000000 (Some "alice") in
  let b := Body None (Some ["t1"]) None None in
  datastore_root st0 = Some ["home"; ".metaflow"]
  ∧ ∃ r st1 n,
      create_run e "MyFlow" b st0 = Ok (r, st1)
      ∧ n = Z.max (wall_micros e) (_last_run_id st0 + 1)
      ∧ r = _build_run_record e "MyFlow" (py_str n) b
      ∧ _last_run_id st1 = n
      ∧ get_run "MyFlow" (py_str n) st1 = Ok (Some r, st1)
      ∧ _task_counters st1 = _task_counters st0
      ∧ ∀ p, p ≠ self_file ["home"; ".metaflow"] ["MyFlow"] →
             p ≠ self_file ["home"; ".metaflow"] ["MyFlow"; py_str n] →
             files st1 !! p = files st0 !! p.
Proof.
  intros st0 e b. split; [reflexivity|].
  exact (create_run_then_get_run e "MyFlow" b st0 ["home"; ".metaflow"] eq_refl).
Defined.





(** X6.  Two calls of [create_run] in one process, for the same flow or for
    two flows, with any readings of the clock, give two runs with distinct
    numbers, the second greater than the first, and both records can be
    fetched afterwards. *)
Theorem create_run_twice (e1 e2 : env) (flow1 flow2 : string) (b1 b2 : body)
    (st : state) (root : list string) :
  datastore_root st = Some root →
  ∃ r1 r2 st1 st2 n1 n2,
    create_run e1 flow1 b1 st = Ok (r1, st1)
    ∧ create_run e2 flow2 b2 st1 = Ok (r2, st2)
    ∧ run_number r1 = Some (py_str n1)
    ∧ run_number r2 = Some (py_str n2)
    ∧ n1 < n2
    ∧ py_str n1 ≠ py_str n2
    ∧ get_run flow1 (py_str n1) st2 = Ok (Some r1, st2)
    ∧ get_run flow2 (py_str n2) st2 = Ok (Some r2, st2).
Proof.
  intros Hroot.
  destruct (create_run_effect e1 flow1 b1 st root Hroot)
    as (st1 & Hrun1 & Hroot1 & Hlast1 & _ & Hfile1 & _).
  destruct (create_run_effect e2 flow2 b2 st1 root Hroot1)
    as (st2 & Hrun2 & Hroot2 & Hlast2 & _ & Hfile2 & Hframe2).
  set (n1 := Z.max (wall_micros e1) (_last_run_id st + 1)) in *.
  set (n2 := Z.max (wall_micros e2) (_last_run_id st1 + 1)) in *.
  assert (Hlt : n1 < n2) by (subst n2; rewrite Hlast1; lia).
  assert (Hne : py_str n1 ≠ py_str n2) by (intros H%py_str_inj; lia).
  eexists _, _, st1, st2, n1, n2.
  split; [exact Hrun1|]. split; [exact Hrun2|]. split; [done|]. split; [done|].
  split; [done|]. split; [done|]. unfold get_run.
  rewrite !(get_object_self_spec _ _ root Hroot2), Hfile2. split; [|done].
  rewrite Hframe2, Hfile1; [done|..]; intros H%self_file_inj; congruence.
Qed.

Lemma create_run_twice_witness :
  let root := ["home"; ".metaflow"] in
  let st0 := State (Some root) ∅ ∅ ∅ 0 in
  let e := Env 1700000000 (Some "alice") in
  let b := Body None None None None in
  datastore_root st0 = Some root
  ∧ ∃ r1 r2 st1 st2 n1 n2,
      create_run e "F" b st0 = Ok (r1, st1)
      ∧ create_run e "F" b st1 = Ok (r2, st2)
      ∧ run_number r1 = Some (py_str n1)
      ∧ run_number r2 = Some (py_str n2)
      ∧ n1 < n2
      ∧ py_str n1 ≠ py_str n2
      ∧ get_run "F" (py_str n1) st2 = Ok (Some r1, st2)
      ∧ get_run "F" (py_str n2) st2 = Ok (Some r2, st2).
Proof.
  intros root st0 e b. split; [reflexivity|].
  exact (create_run_twice e e "F" "F" b b st0 root eq_refl).
Defined.

(** X7.  The run clock lives in the process.  In one process the next run
    number is above the last one, whatever the wall clock reads; a process
    that starts afresh takes the wall clock alone (or 1), so with a wall
    clock that has not passed the last number issued it issues a number
    that is not above it. *)
Theorem run_clock_restarts_with_process (e e' : env) (st : state) :
  0 <= _last_run_id st →
  wall_micros e' <= Z.max (wall_micros e) (_last_run_id st + 1) →
  ∃ n st1 st2 st2',
    new_run_id e st = Ok (py_str n, st1)
    ∧ new_run_id e' st1 = Ok (py_str (n + 1), st2)
    ∧ new_run_id e' (restart st1) = Ok (py_str (Z.max (wall_micros e') 1), st2')
    ∧ Z.max (wall_micros e') 1 <= n.
Proof.
  intros Hlast Hwall. unfold new_run_id, restart.
  cbn [_last_run_id set_last_run_id].
  set (n := Z.max (wall_micros e) (_last_run_id st + 1)) in *.
  assert (Heq : Z.max (wall_micros e') (n + 1) = n + 1) by lia.
  eexists n, _, _, _. split; [done|].
  change (_last_run_id (set_last_run_id n st)) with n. rewrite Heq.
  split; [done|]. split; [done|]. lia.
Qed.

Lemma run_clock_restarts_with_process_witness :
  let st0 := State (Some ["home"; ".metaflow"]) ∅ ∅ ∅ 0 in
  let e := Env 1700000000 (Some "alice") in
  (0 <= _last_run_id st0
   ∧ wall_micros e <= Z.max (wall_micros e) (_last_run_id st0 + 1))
  ∧ ∃ n st1 st2 st2',
      new_run_id e st0 = Ok (py_str n, st1)
      ∧ new_run_id e st1 = Ok (py_str (n + 1), st2)
      ∧ new_run_id e (restart st1) = Ok (py_str (Z.max (wall_micros e) 1), st2')
      ∧ Z.max (wall_micros e) 1 <= n.
Proof.
  intros st0 e.
  assert (H1 : 0 <= _last_run_id st0) by (simpl; lia).
  assert (H2 : wall_micros e <= Z.max (wall_micros e) (_last_run_id st0 + 1)) by lia.
  split; [by split|]. exact (run_clock_restarts_with_process e e st0 H1 H2).
Defined.




Lemma first_id_after_restart_is_fresh_witness :
  let root := ["home"; ".metaflow"] in
  let t := Entity "F" (Some "7") (Some "start") (Some "41") "alice" [] [] 0 in
  let st0 := State (Some root)
               {[self_file root ["F"; "7"; "start"; "41"] := Self t]} ∅
               {["F/7" := 41]} 0 in
  (datastore_root st0 = Some root ∧ literal (root ++ ["F"; "7"]))
  ∧ ∃ n st',
      _next_task_id "F" "7" (restart st0) = Ok (py_str n, st')
      ∧ n = _scan_max_task_id st0 "F" "7" + 1
      ∧ ∀ step task m,
          is_Some (files st0 !! self_file root ["F"; "7"; step; task]) →
          ishidden step = false →
          py_int task = Some m →
          m < n.
Proof.
  intros root t st0.
  assert (H1 : datastore_root st0 = Some root) by reflexivity.
  assert (H2 : literal (root ++ ["F"; "7"])) by (repeat constructor).
  split; [by split|].
  exact (first_id_after_restart_is_fresh st0 root "F" "7" H1 H2).
Defined.

End StoreMoreFacts.

(** ** Stopping and starting the daemon *)

Module SupervisorFacts.
Import Py Daemon Supervisor Vocabulary PyFacts DaemonFacts.

(** X9.  What [status] makes of the record that [_run_server] wrote with
    [_write_state].  The record is read back as it was written; when the
    process answers signal 0 it is returned and the files are kept, when
    [os.kill] raises [ProcessLookupError] or [PermissionError] the answer is
    [None] and both files are removed, and any other error of [os.kill]
    escapes and leaves the files. *)
Theorem status_after_write_state (float_of_str : string → option Q)
    (repr : json → string) (s : DaemonState) (o : os) :
  status float_of_str repr (_write_state s o)
  = match kill0 o (pid s) with
    | Delivered => (Returned (Some s), _write_state s o)
    | ProcessLookupError | PermissionError => (Returned None, _clear_state o)
    | OtherError => (Raised, _write_state s o)
    end.
Proof.
  unfold status. rewrite read_state_write_state. unfold _is_alive.
  destruct s as [p q r t]. cbn [pid port metaflow_root started_at _write_state kill0].
  by destruct (kill0 o p).
Qed.

(** X10.  When [stop] returns, no discovery record can be read any more and
    a second [stop] returns [False] and changes nothing.  It returns [True]
    exactly when it read the record of a process that answers signal 0; it
    then removes both files, and it has sent SIGTERM to that process and to
    no other, or to none when the process was gone by then.  When it
    returns [False] it has sent no signal. *)
Theorem stop_returns (float_of_str : string → option Q) (repr : json → string)
    (w w' : world) (b : bool) :
  stop float_of_str repr w = (Returned b, w') →
  _read_state float_of_str repr (w_os w') = None
  ∧ stop float_of_str repr w' = (Returned false, w')
  ∧ sigterm w' = sigterm w
  ∧ if b
    then ∃ s, _read_state float_of_str repr (w_os w) = Some s
              ∧ kill0 (w_os w) (pid s) = Delivered
              ∧ state_file (w_os w') = None
              ∧ pid_file (w_os w') = None
              ∧ (sigterm w (pid s) = Delivered
                 ∧ signalled w' = signalled w ++ [pid s]
                 ∨ sigterm w (pid s) = ProcessLookupError
                   ∧ signalled w' = signalled w)
    else signalled w' = signalled w
         ∧ ∀ s, _read_state float_of_str repr (w_os w) = Some s →
                kill0 (w_os w) (pid s) ≠ Delivered.
Proof.
  unfold stop, status, _is_alive.
  destruct (_read_state float_of_str repr (w_os w)) as [s|] eqn:Hread.
  - destruct (kill0 (w_os w) (pid s)) eqn:Hlive.
    + destruct (sigterm w (pid s)) eqn:Hterm; intros [= <- <-];
        cbn [w_os sigterm signalled];
        (split; [done|]); (split; [done|]); (split; [done|]);
        exists s; repeat split; auto.
    + intros [= <- <-]. cbn [w_os sigterm signalled].
      repeat split. intros s' [= <-]. congruence.
    + intros [= <- <-]. cbn [w_os sigterm signalled].
      repeat split. intros s' [= <-]. congruence.
    + intros [=].
  - intros [= <- <-]. cbn [w_os sigterm signalled]. rewrite Hread.
    repeat split. intros s' [=].
Qed.

Lemma stop_returns_witness :
  let f : string → option Q := λ _, None in
  let rp : json → string := λ _, "" in
  let s := MkDaemonState 4242 8080 "/home/alice/project" 1700000000 in
  let alive : Z → kill_outcome :=
    λ p, if p =? 4242 then Delivered else ProcessLookupError in
  let w := World (_write_state s (Os None None alive)) alive [] in
  let w' := World (Os None None alive) alive [4242] in
  stop f rp w = (Returned true, w')
  ∧ _read_state f rp (w_os w') = None
  ∧ stop f rp w' = (Returned false, w')
  ∧ sigterm w' = sigterm w
  ∧ ∃ s, _read_state f rp (w_os w) = Some s
         ∧ kill0 (w_os w) (pid s) = Delivered
         ∧ state_file (w_os w') = None
         ∧ pid_file (w_os w') = None
         ∧ (sigterm w (pid s) = Delivered
            ∧ signalled w' = signalled w ++ [pid s]
            ∨ sigterm w (pid s) = ProcessLookupError
              ∧ signalled w' = signalled w).
Proof.
  intros f rp s alive w w'.
  assert (H : stop f rp w = (Returned true, w')) by reflexivity.
  split; [exact H|]. exact (stop_returns f rp w w' true H).
Defined.

(** The readings that keep the loop of [start] turning: the clock is before
    the deadline and the probe fails. *)
Lemma poll_reachable d rs :
  poll d rs = Reachable
  ↔ ∃ pre now post,
      rs = pre ++ (now, true) :: post
      ∧ Forall (λ r, (fst r < d)%Q ∧ snd r = false) pre
      ∧ (now < d)%Q.
Proof.
  induction rs as [|[now ok] rs IH]; simpl.
  - split; [done|]. intros (pre & ? & ? & Heq & _). by destruct pre.
  - destruct (Qle_bool d now) eqn:Hd; simpl.
    + split; [done|]. intros (pre & now' & post & Heq & Hpre & Hnow).
      apply Qle_bool_iff in Hd. destruct pre as [|[t k] pre]; simplify_eq/=.
      * by apply Qlt_not_le in Hnow.
      * apply Forall_inv in Hpre as [Ht _]. by apply Qlt_not_le in Ht.
    + assert (Hlt : (now < d)%Q).
      { apply Qnot_le_lt. intros Hle%Qle_bool_iff. congruence. }
      destruct ok.
      * split; [|done]. intros _. by exists [], now, rs.
      * rewrite IH. split.
        -- intros (pre & now' & post & -> & Hpre & Hnow).
           exists ((now, false) :: pre), now', post.
           split; [done|]. split; [by constructor | done].
        -- intros (pre & now' & post & Heq & Hpre & Hnow).
           destruct pre as [|[t k] pre]; simplify_eq/=.
           exists pre, now', post. split; [done|].
           split; [by apply Forall_inv_tail in Hpre | done].
Qed.

Lemma poll_timed_out d rs :
  poll d rs = TimedOut
  ↔ ∃ pre now ok post,
      rs = pre ++ (now, ok) :: post
      ∧ Forall (λ r, (fst r < d)%Q ∧ snd r = false) pre
      ∧ (d <= now)%Q.
Proof.
  induction rs as [|[now ok] rs IH]; simpl.
  - split; [done|]. intros (pre & ? & ? & ? & Heq & _). by destruct pre.
  - destruct (Qle_bool d now) eqn:Hd; simpl.
    + split; [|done]. intros _. apply Qle_bool_iff in Hd.
      by exists [], now, ok, rs.
    + assert (Hlt : (now < d)%Q).
      { apply Qnot_le_lt. intros Hle%Qle_bool_iff. congruence. }
      destruct ok.
      * split; [done|]. intros (pre & now' & ok' & post & Heq & Hpre & Hnow).
        destruct pre as [|[t k] pre]; simplify_eq/=.
        -- by apply Qlt_not_le in Hlt.
        -- by apply Forall_inv in Hpre as [_ ?].
      * rewrite IH. split.
        -- intros (pre & now' & ok' & post & -> & Hpre & Hnow).
           exists ((now, false) :: pre), now', ok', post.
           split; [done|]. split; [by constructor | done].
        -- intros (pre & now' & ok' & post & Heq & Hpre & Hnow).
           destruct pre as [|[t k] pre]; simplify_eq/=.
           ++ by apply Qlt_not_le in Hlt.
           ++ exists pre, now', ok', post. split; [done|].
              split; [by apply Forall_inv_tail in Hpre | done].
Qed.

Lemma poll_pending d rs :
  poll d rs = Pending → Forall (λ r, (fst r < d)%Q ∧ snd r = false) rs.
Proof.
  induction rs as [|[now ok] rs IH]; simpl; [by constructor|].
  destruct (Qle_bool d now) eqn:Hd; simpl; [done|].
  assert (Hlt : (now < d)%Q).
  { apply Qnot_le_lt. intros Hle%Qle_bool_iff. congruence. }
  destruct ok; [done|]. intros H. constructor; [done | by apply IH].
Qed.

(** X11.  How [start] ends.  When [status] reports a daemon, [start] returns
    its state and the arguments play no part.  Otherwise it returns the
    state of the child only if a probe of [/ping] succeeded on a turn whose
    clock reading was before the deadline, ten seconds after its first
    reading, every earlier turn having been before the deadline with a
    failed probe; it raises when a reading reaches the deadline first.  The
    state it returns names the child's process, the port it was given or,
    for port 0, the free port it found, and the root it was given or the
    current directory; the command line of the child carries that port, that
    root and the idle timeout, as decimal strings that [int] reads back. *)
Theorem start_outcomes (float_of_str : string → option Q) (repr : json → string)
    (port : Z) (metaflow_root : option string) (idle_timeout : Z)
    (env : start_env) (o : os) :
  let deadline := (deadline_clock env + 10)%Q in
  let waiting := λ r : Q * bool, (fst r < deadline)%Q ∧ snd r = false in
  match start float_of_str repr port metaflow_root idle_timeout env o with
  | (AlreadyRunning s, o') =>
      status float_of_str repr o = (Returned (Some s), o')
  | (Started s cmd, o') =>
      status float_of_str repr o = (Returned None, o')
      ∧ pid s = child_pid env
      ∧ Daemon.port s = (if port =? 0 then find_free_port env else port)
      ∧ Daemon.metaflow_root s = default (getcwd env) metaflow_root
      ∧ started_at s = started_clock env
      ∧ (cmd !! 4%nat) ≫= py_int = Some (Daemon.port s)
      ∧ cmd !! 6%nat = Some (Daemon.metaflow_root s)
      ∧ (cmd !! 8%nat) ≫= py_int = Some idle_timeout
      ∧ ∃ pre now post,
          readings env = pre ++ (now, true) :: post
          ∧ Forall waiting pre ∧ (now < deadline)%Q
  | (StartFailed cmd, o') =>
      status float_of_str repr o = (Returned None, o')
      ∧ ∃ pre now ok post,
          readings env = pre ++ (now, ok) :: post
          ∧ Forall waiting pre ∧ (deadline <= now)%Q
  | (StartPending cmd, o') =>
      status float_of_str repr o = (Returned None, o')
      ∧ Forall waiting (readings env)
  | (StatusRaised, o') => status float_of_str repr o = (Raised, o')
  end.
Proof.
  intros deadline waiting. unfold start.
  destruct (status float_of_str repr o) as [[[s|]|] o'] eqn:Hstatus; [done| |done].
  fold deadline. destruct (poll deadline (readings env)) eqn:Hpoll.
  - cbn [pid Daemon.port Daemon.metaflow_root started_at].
    split; [done|]. split; [done|]. split; [done|]. split; [done|].
    split; [done|]. split; [apply py_int_py_str|]. split; [done|].
    split; [apply py_int_py_str|]. by apply poll_reachable.
  - split; [done|]. by apply poll_timed_out.
  - split; [done|]. by apply poll_pending.
Qed.

End SupervisorFacts.

(** ** The routes that create and fetch entities *)

Module RoutesFacts.
Import Py Glob Store Vocabulary PyFacts GlobFacts StoreFacts StoreMoreFacts.
Import Routes.







End RoutesFacts.
